(** * Phase sequences with timing (ct/core/switching/Switching.h)

    A shallow embedding of [ct::core::PhaseSequence<Phase, Time>] and of the
    operations it offers, followed by the properties of its timing and
    indexing protocol.

    The class is a template over the phase type and the time type; the
    development is parametric in both.  Member functions are not declared
    [const] in the source, so every one of them is embedded as a state
    transformer over the two member vectors. *)

From stdpp Require Import base numbers option list.

Local Open Scope Z_scope.

(** ** The time type

    [Time] is a template parameter.  The class uses [operator<] (through
    [std::lower_bound]), [operator+] (in [addPhase]) and the conversion of
    the literal [0] (default start time). *)

Class TimeOps (Time : Type) := {
  t_lt : Time → Time → bool;
  t_add : Time → Time → Time;
  t_zero : Time
}.

(** [x <= y] is [!(y < x)]. *)
Definition t_le `{TimeOps Time} (x y : Time) : bool := negb (t_lt y x).

(** What the properties of the search ask of the time type: [<] is a strict
    weak order, which is also what [std::lower_bound] asks of it.  Nothing is
    asked of [+]: the sum of a time and a non-negative duration can be below
    the time (an [int] sum that overflows), and where a property needs the
    sum to be in order it says so of the sum at hand.  The [<] of [int] obeys
    these laws; the [<] of [double] does on the values other than NaN. *)
Class TimeLaws (Time : Type) `{TimeOps Time} : Prop := {
  t_lt_irrefl : ∀ x : Time, t_lt x x = false;
  t_lt_trans : ∀ x y z : Time, t_lt x y = true → t_lt y z = true → t_lt x z = true;
  t_le_trans : ∀ x y z : Time, t_le x y = true → t_le y z = true → t_le x z = true
}.

(** ** [std::size_t]

    Counts and indices are [std::size_t]: unsigned, 64 bits wide on the
    platforms the toolbox is built for.  Arithmetic on them wraps. *)

Definition SIZE_MODULUS : Z := 2 ^ 64.
Definition SIZE_MAX : Z := SIZE_MODULUS - 1.

Definition size_t_wrap (z : Z) : Z := z `mod` SIZE_MODULUS.

(** ** [std::vector]

    [size()], unchecked [operator[]] (no result when the index is out of
    bounds: the access is undefined, nothing is thrown), [back()] (no result
    on an empty vector) and [push_back]/[emplace_back]. *)

Definition vec_size {A} (v : list A) : Z := Z.of_nat (length v).

Definition vec_at {A} (v : list A) (n : Z) : option A :=
  if decide (0 ≤ n) then v !! Z.to_nat n else None.

Definition vec_back {A} (v : list A) : option A := last v.

Definition push_back {A} (v : list A) (x : A) : list A := v ++ [x].

(** ** [std::lower_bound]

    The loop of the standard library's [lower_bound] on a random access
    range, with [first] an offset from [begin()] and [len] the number of
    elements still under consideration:
<<
      while (len > 0) {
        half = len >> 1;  middle = first + half;
        if (comp(middle, val)) { first = middle + 1; len = len - half - 1; }
        else len = half;
      }
      return first;
>>
    with [comp(middle, val)] the test [v[middle] < val].
    [len] at least halves in every round, so [len] rounds of fuel are
    enough (lemma [lower_bound_loop_fuel]). *)

Section LowerBound.
Context `{TimeOps Time}.

Fixpoint lower_bound_loop (fuel : nat) (v : list Time) (val : Time)
    (first len : nat) : nat :=
  match fuel with
  | O => first
  | S fuel' =>
      if decide (len = 0)%nat then first
      else
        let half := Nat.div2 len in
        let middle := (first + half)%nat in
        match v !! middle with
        | Some x =>
            if t_lt x val
            then lower_bound_loop fuel' v val (middle + 1)%nat (len - half - 1)%nat
            else lower_bound_loop fuel' v val first half
        | None => first
        end
  end.

(** [std::lower_bound(v.begin(), v.end(), val) - v.begin()] *)
Definition lower_bound (v : list Time) (val : Time) : nat :=
  lower_bound_loop (length v) v val 0 (length v).

(** [k] splits [v] into the elements below [val] and the others. *)
Definition partition_point (v : list Time) (val : Time) (k : nat) : Prop :=
  (k ≤ length v)%nat ∧
  (∀ (i : nat) x, v !! i = Some x → (i < k)%nat → t_lt x val = true) ∧
  (∀ (i : nat) x, v !! i = Some x → (k ≤ i)%nat → t_lt x val = false).

(** The vector is non-decreasing: [v[i] <= v[i+1]] for every valid [i]. *)
Definition non_decreasing (v : list Time) : Prop :=
  ∀ (i : nat) x y, v !! i = Some x → v !! S i = Some y → t_le x y = true.

(** Number of leading elements below [val]. *)
Fixpoint count_below (v : list Time) (val : Time) : nat :=
  match v with
  | [] => O
  | x :: v' => if t_lt x val then S (count_below v' val) else O
  end.
End LowerBound.

(** ** The class *)

Section PhaseSequence.
(** [PhasePtr_t] is [std::shared_ptr<Phase>]: a handle, compared by
    identity and never dereferenced here. *)
Context {PhasePtr_t : Type} `{TimeOps Time}.

Record SwitchEvent := mkSwitchEvent {
  pre_phase : PhasePtr_t;
  post_phase : PhasePtr_t;
  switch_time : Time
}.

Record PhaseSequence := mkPhaseSequence {
  phase_schedule_ : list PhasePtr_t;
  time_schedule_ : list Time
}.

(** A member function returning [A]: it receives the object, and either
    returns a value together with the object as it leaves it, or has no
    defined behaviour ([None]). *)
Definition method (A : Type) : Type := PhaseSequence → option (A * PhaseSequence).

#[export] Instance method_ret : MRet method := λ A a s, Some (a, s).
#[export] Instance method_bind : MBind method := λ A B f m s,
  match m s with
  | Some (a, s') => f a s'
  | None => None
  end.

(** Reading a member, assigning a member, and evaluating an expression that
    may be undefined. *)
Definition get_phase_schedule : method (list PhasePtr_t) :=
  λ s, Some (phase_schedule_ s, s).
Definition get_time_schedule : method (list Time) :=
  λ s, Some (time_schedule_ s, s).
Definition set_phase_schedule (v : list PhasePtr_t) : method () :=
  λ s, Some ((), mkPhaseSequence v (time_schedule_ s)).
Definition set_time_schedule (v : list Time) : method () :=
  λ s, Some ((), mkPhaseSequence (phase_schedule_ s) v).
Definition defined {A} (o : option A) : method A :=
  λ s, match o with Some a => Some (a, s) | None => None end.

(** [PhaseSequence(const Time& start_time = 0)]: both vectors start empty,
    then [time_schedule_.push_back(start_time)]. *)
Definition PhaseSequence_new (start_time : Time) : PhaseSequence :=
  mkPhaseSequence [] (push_back [] start_time).

Definition PhaseSequence_default : PhaseSequence := PhaseSequence_new t_zero.

(** [addPhase]: no check on [duration]. *)
Definition addPhase (phase : PhasePtr_t) (duration : Time) : method () :=
  ps ← get_phase_schedule;
  set_phase_schedule (push_back ps phase);;
  ts ← get_time_schedule;
  b ← defined (vec_back ts);
  set_time_schedule (push_back ts (t_add b duration)).

Definition getNumPhases : method Z :=
  ps ← get_phase_schedule; mret (vec_size ps).

(** [getNumPhases() - 1] in [std::size_t]. *)
Definition getNumSwitches : method Z :=
  n ← getNumPhases; mret (size_t_wrap (n - 1)).

Definition getStartTimeFromIdx (idx : Z) : method Time :=
  ts ← get_time_schedule; defined (vec_at ts idx).

Definition getEndTimeFromIdx (idx : Z) : method Time :=
  ts ← get_time_schedule; defined (vec_at ts (size_t_wrap (idx + 1))).

Definition getPhasePtrFromIdx (idx : Z) : method PhasePtr_t :=
  ps ← get_phase_schedule; defined (vec_at ps idx).

(** [low - time_schedule_.begin()], a non-negative difference. *)
Definition getIdxFromTime (time : Time) : method Z :=
  ts ← get_time_schedule; mret (Z.of_nat (lower_bound ts time)).

Definition getPhasePtrFromTime (time : Time) : method PhasePtr_t :=
  idx ← getIdxFromTime time; getPhasePtrFromIdx idx.

(** Modelled from the spec: [getPhasePtr], which [getSwitchEventFromIdx]
    calls, is declared nowhere in Switching.h.  The specification gives the
    event as [{pre = phase_schedule[i], post = phase_schedule[i+1], ...}],
    so [getPhasePtr(i)] reads [phase_schedule_[i]]. *)
Definition getPhasePtr (idx : Z) : method PhasePtr_t :=
  ps ← get_phase_schedule; defined (vec_at ps idx).

(** The braced initialiser evaluates its three elements left to right. *)
Definition getSwitchEventFromIdx (idx : Z) : method SwitchEvent :=
  pre ← getPhasePtr idx;
  post ← getPhasePtr (size_t_wrap (idx + 1));
  t ← getEndTimeFromIdx idx;
  mret (mkSwitchEvent pre post t).

Definition getSwitchEventFromTime (time : Time) : method SwitchEvent :=
  idx ← getIdxFromTime time; getSwitchEventFromIdx idx.

(** A member function that hands the object back as it received it. *)
Definition pure_method {A} (m : method A) : Prop :=
  ∀ s a s', m s = Some (a, s') → s' = s.

(** *** Sequences of calls *)

Inductive call : Type :=
| call_addPhase (phase : PhasePtr_t) (duration : Time)
| call_getNumPhases
| call_getNumSwitches
| call_getStartTimeFromIdx (idx : Z)
| call_getEndTimeFromIdx (idx : Z)
| call_getPhasePtrFromIdx (idx : Z)
| call_getPhasePtrFromTime (time : Time)
| call_getSwitchEventFromIdx (idx : Z)
| call_getSwitchEventFromTime (time : Time)
| call_getIdxFromTime (time : Time).

Definition is_query (c : call) : bool :=
  match c with
  | call_addPhase _ _ => false
  | _ => true
  end.

(** The object after a call (the returned value is dropped). *)
Definition state_after {A} (m : method A) (s : PhaseSequence) : option PhaseSequence :=
  snd <$> m s.

Definition exec (c : call) (s : PhaseSequence) : option PhaseSequence :=
  match c with
  | call_addPhase p d => state_after (addPhase p d) s
  | call_getNumPhases => state_after getNumPhases s
  | call_getNumSwitches => state_after getNumSwitches s
  | call_getStartTimeFromIdx i => state_after (getStartTimeFromIdx i) s
  | call_getEndTimeFromIdx i => state_after (getEndTimeFromIdx i) s
  | call_getPhasePtrFromIdx i => state_after (getPhasePtrFromIdx i) s
  | call_getPhasePtrFromTime t => state_after (getPhasePtrFromTime t) s
  | call_getSwitchEventFromIdx i => state_after (getSwitchEventFromIdx i) s
  | call_getSwitchEventFromTime t => state_after (getSwitchEventFromTime t) s
  | call_getIdxFromTime t => state_after (getIdxFromTime t) s
  end.

Fixpoint exec_all (cs : list call) (s : PhaseSequence) : option PhaseSequence :=
  match cs with
  | [] => Some s
  | c :: cs' =>
      match exec c s with
      | Some s' => exec_all cs' s'
      | None => None
      end
  end.

(** *** Sequences under consideration *)

(** Built by the constructor and appends with non-negative durations. *)
Inductive built : PhaseSequence → Prop :=
| built_new start_time : built (PhaseSequence_new start_time)
| built_addPhase s phase duration s' :
    built s →
    t_le t_zero duration = true →
    addPhase phase duration s = Some ((), s') →
    built s'.

(** Built by the constructor and appends with non-negative durations none
    of which takes the sum [time_schedule_.back() + duration] below
    [time_schedule_.back()]: no sum overflows the time type. *)
Inductive built_without_overflow : PhaseSequence → Prop :=
| built_without_overflow_new start_time :
    built_without_overflow (PhaseSequence_new start_time)
| built_without_overflow_addPhase s phase duration b s' :
    built_without_overflow s →
    t_le t_zero duration = true →
    vec_back (time_schedule_ s) = Some b →
    t_le b (t_add b duration) = true →
    addPhase phase duration s = Some ((), s') →
    built_without_overflow s'.

(** One boundary time more than phases (holds whatever the durations). *)
Definition consistent (s : PhaseSequence) : Prop :=
  length (time_schedule_ s) = (length (phase_schedule_ s) + 1)%nat.

(** The invariant of the two vectors. *)
Definition invariant (s : PhaseSequence) : Prop :=
  consistent s ∧ non_decreasing (time_schedule_ s).

(** A member function that returns whatever the object it is called on. *)
Definition total_method {A} (m : method A) : Prop :=
  ∀ s, is_Some (m s).

(** The vectors are small enough for their sizes and indices to be
    [std::size_t] values, as every vector in memory is. *)
Definition representable (s : PhaseSequence) : Prop :=
  vec_size (time_schedule_ s) ≤ SIZE_MAX.
End PhaseSequence.

Arguments SwitchEvent : clear implicits.
Arguments PhaseSequence : clear implicits.
Arguments call : clear implicits.

(** ** Building a sequence from a list

    The boundary times that appending the durations [ds] one after the other
    produces from the boundary time [b], [b] included; and the calls that
    append the phases of [l], each with its duration, in order. *)

Fixpoint boundary_times `{TimeOps Time} (b : Time) (ds : list Time) : list Time :=
  match ds with
  | [] => [b]
  | d :: ds' => b :: boundary_times (t_add b d) ds'
  end.

Definition append_calls {PhasePtr_t Time : Type} (l : list (PhasePtr_t * Time))
    : list (call PhasePtr_t Time) :=
  map (λ pd, call_addPhase pd.1 pd.2) l.

(** ** The discrete instance: [int] time

    [DiscreteModeSequence] is [PhaseSequence<std::size_t, int>].  An [int]
    is 32 bits wide and is modelled as an integer between [INT_MIN] and
    [INT_MAX].  The standard leaves a sum outside that range undefined; the
    compiled code wraps it around in two's complement, and that is what
    [int_add] does.  [ContinuousModeSequence] has floating point times, which
    are not modelled: what is proved for every time type with the laws of
    [TimeLaws] applies to it as far as its comparisons obey them. *)

Definition INT_MAX : Z := 2147483647.
Definition INT_MIN : Z := -2147483648.

Definition int_wrap (z : Z) : Z := (z + 2147483648) `mod` 4294967296 - 2147483648.

Definition int_add (x y : Z) : Z := int_wrap (x + y).

#[export] Instance int_TimeOps : TimeOps Z := {|
  t_lt := Z.ltb;
  t_add := int_add;
  t_zero := 0
|}.

(** A sequence of three phases as drawn in the class comment, here with start
    time 0, durations 2, 3 and 1, and handles 10, 11 and 12. *)
Definition three_phases : PhaseSequence nat Z :=
  mkPhaseSequence [10%nat; 11%nat; 12%nat] [0; 2; 5; 6].

(** A sequence with start time 0 and three phases of durations 2, 0 and 0. *)
Definition zero_durations : PhaseSequence nat Z :=
  mkPhaseSequence [10%nat; 11%nat; 12%nat] [0; 2; 2; 2].

(** A sequence with start time 0 and three phases of durations 5, -4 and 5. *)
Definition negative_duration : PhaseSequence nat Z :=
  mkPhaseSequence [10%nat; 11%nat; 12%nat] [0; 5; 1; 6].

(** The sequence with start time [INT_MAX] and one phase of duration 1, and
    the sequence with start time [INT_MAX - 1] and three phases of durations
    1, 1 and 5: the sum that passes [INT_MAX] comes out at [INT_MIN]. *)
Definition overflowed_once : PhaseSequence nat Z :=
  mkPhaseSequence [10%nat] [INT_MAX; INT_MIN].

Definition overflowed : PhaseSequence nat Z :=
  mkPhaseSequence [10%nat; 11%nat; 12%nat]
    [INT_MAX - 1; INT_MAX; INT_MIN; INT_MIN + 5].


(** * Properties *)

(** ** The binary search *)

Section LowerBoundFacts.
Context `{TimeOps Time}.
Implicit Types (v : list Time) (val : Time).

Lemma div2_lt (len : nat) : len ≠ O → (Nat.div2 len < len)%nat.
Proof. intros. apply Nat.lt_div2. lia. Qed.

(** The result stays inside the range under search. *)
Lemma lower_bound_loop_range fuel v val first len :
  (first ≤ lower_bound_loop fuel v val first len ≤ first + len)%nat.
Proof.
  revert first len. induction fuel as [|fuel IH]; intros first len; simpl.
  - lia.
  - case_decide; [lia|].
    pose proof (div2_lt len) as Hhalf.
    generalize dependent (Nat.div2 len). intros half Hhalf.
    destruct (v !! _) as [x|]; [|lia].
    destruct (t_lt x val).
    + specialize (IH (first + half + 1)%nat (len - half - 1)%nat). lia.
    + specialize (IH first half). lia.
Qed.


(** The loop finds the partition point of the range it is given. *)
Lemma lower_bound_loop_partition fuel v val k first len :
  partition_point v val k →
  (first ≤ k ≤ first + len)%nat → (first + len ≤ length v)%nat → (len ≤ fuel)%nat →
  lower_bound_loop fuel v val first len = k.
Proof.
  intros (Hk & Hlow & Hhigh). revert first len.
  induction fuel as [|fuel IH]; intros first len Hrange Hlen Hfuel; simpl.
  - lia.
  - case_decide; [lia|].
    pose proof (div2_lt len) as Hhalf.
    generalize dependent (Nat.div2 len). intros half Hhalf.
    destruct (lookup_lt_is_Some_2 v (first + half)) as [x Hx]; [lia|].
    rewrite Hx. destruct (t_lt x val) eqn:Hlt.
    + apply IH; [|lia..].
      destruct (decide (k ≤ first + half)%nat) as [Hle|]; [|lia].
      rewrite (Hhigh _ _ Hx Hle) in Hlt. done.
    + apply IH; [|lia..].
      destruct (decide (first + half < k)%nat) as [Hl|]; [|lia].
      rewrite (Hlow _ _ Hx Hl) in Hlt. done.
Qed.

Lemma lower_bound_partition v val k :
  partition_point v val k → lower_bound v val = k.
Proof.
  intros Hk. apply lower_bound_loop_partition; [done| |lia..].
  destruct Hk as [? _]. lia.
Qed.

Lemma lower_bound_le_length v val : (lower_bound v val ≤ length v)%nat.
Proof.
  pose proof (lower_bound_loop_range (length v) v val 0 (length v)).
  unfold lower_bound. lia.
Qed.

(** The search is monotone in the value searched for, on any vector. *)
Lemma lower_bound_loop_mono fuel v (t1 t2 : Time) first len :
  (∀ x : Time, t_lt x t1 = true → t_lt x t2 = true) →
  (lower_bound_loop fuel v t1 first len ≤ lower_bound_loop fuel v t2 first len)%nat.
Proof.
  intros Ht. revert first len. induction fuel as [|fuel IH]; intros first len; simpl.
  - lia.
  - case_decide; [lia|].
    pose proof (div2_lt len) as Hhalf.
    generalize dependent (Nat.div2 len). intros half Hhalf.
    destruct (v !! _) as [x|]; [|lia].
    destruct (t_lt x t1) eqn:H1.
    + rewrite (Ht x H1). apply IH.
    + destruct (t_lt x t2); [|apply IH].
      pose proof (lower_bound_loop_range fuel v t1 first half).
      pose proof (lower_bound_loop_range fuel v t2 (first + half + 1)
                    (len - half - 1)).
      lia.
Qed.

Lemma partition_point_unique v val k k' :
  partition_point v val k → partition_point v val k' → k = k'.
Proof.
  intros Hk Hk'. rewrite <-(lower_bound_partition v val k Hk).
  by apply lower_bound_partition.
Qed.
End LowerBoundFacts.

(** ** Non-decreasing vectors *)

Section Ordered.
Context `{TimeLaws Time}.
Implicit Types (v : list Time) (val : Time).

Lemma t_le_refl (x : Time) : t_le x x = true.
Proof. unfold t_le. by rewrite t_lt_irrefl. Qed.

Lemma t_lt_le_trans (x y z : Time) :
  t_lt x y = true → t_le y z = true → t_lt x z = true.
Proof.
  intros Hxy Hyz. destruct (t_lt x z) eqn:Hxz; [done|].
  assert (t_le z x = true) as Hzx by (unfold t_le; by rewrite Hxz).
  pose proof (t_le_trans _ _ _ Hyz Hzx) as Hyx.
  unfold t_le in Hyx. rewrite Hxy in Hyx. done.
Qed.

Lemma t_le_lt_trans (x y z : Time) :
  t_le x y = true → t_lt y z = true → t_lt x z = true.
Proof.
  intros Hxy Hyz. destruct (t_lt x z) eqn:Hxz; [done|].
  assert (t_le z x = true) as Hzx by (unfold t_le; by rewrite Hxz).
  pose proof (t_le_trans _ _ _ Hzx Hxy) as Hzy.
  unfold t_le in Hzy. rewrite Hyz in Hzy. done.
Qed.

Lemma non_decreasing_nil : non_decreasing (@nil Time).
Proof. intros i x y Hx. done. Qed.

Lemma non_decreasing_singleton (x : Time) : non_decreasing [x].
Proof. intros [|i] a b Ha Hb; done. Qed.

Lemma non_decreasing_tail (x : Time) v : non_decreasing (x :: v) → non_decreasing v.
Proof. intros Hv i a b Ha Hb. by apply (Hv (S i)). Qed.

(** Any two entries are ordered like their indices. *)
Lemma non_decreasing_lookup v (i j : nat) x y :
  non_decreasing v → (i ≤ j)%nat → v !! i = Some x → v !! j = Some y →
  t_le x y = true.
Proof.
  intros Hv Hij Hx. revert y. induction Hij as [|j Hij IH]; intros y Hy.
  - rewrite Hx in Hy. injection Hy as ->. apply t_le_refl.
  - destruct (lookup_lt_is_Some_2 v j) as [z Hz].
    { apply lookup_lt_Some in Hy. lia. }
    eapply t_le_trans; [by apply IH|]. by apply (Hv j).
Qed.

(** Appending a value that is not below the last entry. *)
Lemma non_decreasing_snoc v (b x : Time) :
  non_decreasing v → last v = Some b → t_le b x = true →
  non_decreasing (v ++ [x]).
Proof.
  intros Hv Hb Hbx i a c Ha Hc.
  assert (S i < length (v ++ [x]))%nat as Hi by (by eapply lookup_lt_Some).
  rewrite length_app in Hi. simpl in Hi.
  rewrite lookup_app_l in Ha by lia.
  destruct (decide (S i < length v)%nat) as [Hlt|Hge].
  - rewrite lookup_app_l in Hc by lia. by apply (Hv i).
  - rewrite lookup_app_r in Hc by lia.
    replace (S i - length v)%nat with O in Hc by lia. injection Hc as <-.
    rewrite last_lookup in Hb.
    replace (pred (length v)) with i in Hb by lia.
    rewrite Ha in Hb. injection Hb as ->. done.
Qed.

(** In a non-decreasing vector the entries below [val] are a prefix. *)
Lemma count_below_partition v val :
  non_decreasing v → partition_point v val (count_below v val).
Proof.
  induction v as [|x v IH]; intros Hv.
  - repeat split; simpl; [lia|intros; lia|done].
  - simpl. destruct (t_lt x val) eqn:Hlt.
    + destruct (IH (non_decreasing_tail _ _ Hv)) as (Hk & Hlow & Hhigh).
      repeat split; simpl.
      * lia.
      * intros [|i] a Ha Hi; simpl in Ha; [by injection Ha as <-|].
        apply (Hlow i); [done|lia].
      * intros [|i] a Ha Hi; [lia|]. apply (Hhigh i); [done|lia].
    + repeat split; simpl; [lia|intros; lia|].
      intros i a Ha _.
      assert (t_le x a = true) as Hxa.
      { apply (non_decreasing_lookup (x :: v) 0 i); [done|lia|done|done]. }
      destruct (t_lt a val) eqn:Ha'; [|done].
      rewrite (t_le_lt_trans _ _ _ Hxa Ha') in Hlt. done.
Qed.

Lemma lower_bound_count_below v val :
  non_decreasing v → lower_bound v val = count_below v val.
Proof. intros Hv. by apply lower_bound_partition, count_below_partition. Qed.

(** A later time has no smaller lower bound, sorted vector or not. *)
Lemma lower_bound_mono v (t1 t2 : Time) :
  t_le t1 t2 = true → (lower_bound v t1 ≤ lower_bound v t2)%nat.
Proof.
  intros Ht. apply lower_bound_loop_mono.
  intros x Hx. by apply (t_lt_le_trans x t1 t2).
Qed.

(** At the value of an entry that is above its predecessor, the lower bound
    is the index of that entry. *)
Lemma lower_bound_at_entry v (k : nat) (a b : Time) :
  non_decreasing v → v !! k = Some a → v !! S k = Some b → t_lt a b = true →
  lower_bound v b = S k.
Proof.
  intros Hv Ha Hb Hab. apply lower_bound_partition. repeat split.
  - apply lookup_lt_Some in Hb. lia.
  - intros i x Hx Hi.
    eapply t_le_lt_trans; [|exact Hab].
    apply (non_decreasing_lookup v i k); [done|lia|done|done].
  - intros i x Hx Hi.
    assert (t_le b x = true) as Hbx.
    { by apply (non_decreasing_lookup v (S k) i). }
    unfold t_le in Hbx. by destruct (t_lt x b).
Qed.
End Ordered.

(** ** Vectors and [std::size_t] *)

Section VectorFacts.
Context {A : Type}.
Implicit Types (v : list A).

Lemma size_t_wrap_small (z : Z) : 0 ≤ z ≤ SIZE_MAX → size_t_wrap z = z.
Proof. unfold SIZE_MAX, size_t_wrap. intros. apply Z.mod_small. lia. Qed.

Lemma size_t_wrap_max : size_t_wrap (SIZE_MAX + 1) = 0.
Proof. reflexivity. Qed.

Lemma vec_at_of_nat v (i : nat) : vec_at v (Z.of_nat i) = v !! i.
Proof. unfold vec_at. case_decide; [|lia]. by rewrite Nat2Z.id. Qed.

Lemma vec_at_in_bounds v (n : Z) : 0 ≤ n < vec_size v → is_Some (vec_at v n).
Proof.
  unfold vec_at, vec_size. intros Hn. case_decide; [|lia].
  apply lookup_lt_is_Some_2. lia.
Qed.

Lemma vec_at_out_of_bounds v (n : Z) : vec_size v ≤ n → vec_at v n = None.
Proof.
  unfold vec_at, vec_size. intros Hn. case_decide; [|done].
  apply lookup_ge_None_2. lia.
Qed.

Lemma vec_at_push_back_old v (x a : A) (n : Z) :
  vec_at v n = Some a → vec_at (push_back v x) n = Some a.
Proof.
  unfold vec_at, push_back. case_decide; [|done]. intros Ha.
  by apply lookup_app_l_Some.
Qed.

Lemma vec_at_push_back_new v (x : A) : vec_at (push_back v x) (vec_size v) = Some x.
Proof.
  unfold vec_size, push_back. rewrite vec_at_of_nat.
  rewrite lookup_app_r by lia. by rewrite Nat.sub_diag.
Qed.

Lemma vec_size_push_back v (x : A) : vec_size (push_back v x) = vec_size v + 1.
Proof. unfold vec_size, push_back. rewrite length_app. simpl. lia. Qed.

Lemma vec_back_at v : vec_back v = vec_at v (vec_size v - 1) ∨ v = [].
Proof.
  destruct v as [|x v]; [by right|left].
  unfold vec_back, vec_size. rewrite last_lookup.
  replace (Z.of_nat (length (x :: v)) - 1) with (Z.of_nat (pred (length (x :: v))))
    by (simpl; lia).
  by rewrite vec_at_of_nat.
Qed.
End VectorFacts.

(** ** What each member function computes *)

Section Methods.
Context {PhasePtr_t : Type} `{TimeOps Time}.
Implicit Types (s : PhaseSequence PhasePtr_t Time) (p : PhasePtr_t) (d t : Time).

Local Abbreviation pure := (pure_method (PhasePtr_t:=PhasePtr_t) (Time:=Time)).

Lemma addPhase_run p d s :
  addPhase p d s =
  match vec_back (time_schedule_ s) with
  | Some b =>
      Some ((), mkPhaseSequence (push_back (phase_schedule_ s) p)
                                (push_back (time_schedule_ s) (t_add b d)))
  | None => None
  end.
Proof.
  unfold addPhase, mbind, method_bind. simpl.
  by destruct (vec_back (time_schedule_ s)).
Qed.

Lemma getNumPhases_run s : getNumPhases s = Some (vec_size (phase_schedule_ s), s).
Proof. reflexivity. Qed.

Lemma getNumSwitches_run s :
  getNumSwitches s = Some (size_t_wrap (vec_size (phase_schedule_ s) - 1), s).
Proof. reflexivity. Qed.

Lemma getStartTimeFromIdx_run idx s :
  getStartTimeFromIdx idx s = (λ a, (a, s)) <$> vec_at (time_schedule_ s) idx.
Proof.
  unfold getStartTimeFromIdx, mbind, method_bind, defined. simpl.
  by destruct (vec_at _ _).
Qed.

Lemma getEndTimeFromIdx_run idx s :
  getEndTimeFromIdx idx s =
  (λ a, (a, s)) <$> vec_at (time_schedule_ s) (size_t_wrap (idx + 1)).
Proof.
  unfold getEndTimeFromIdx, mbind, method_bind, defined. simpl.
  by destruct (vec_at _ _).
Qed.

Lemma getPhasePtrFromIdx_run idx s :
  getPhasePtrFromIdx idx s = (λ a, (a, s)) <$> vec_at (phase_schedule_ s) idx.
Proof.
  unfold getPhasePtrFromIdx, mbind, method_bind, defined. simpl.
  by destruct (vec_at _ _).
Qed.

Lemma getIdxFromTime_run t s :
  getIdxFromTime t s = Some (Z.of_nat (lower_bound (time_schedule_ s) t), s).
Proof. reflexivity. Qed.

Lemma getPhasePtrFromTime_run t s :
  getPhasePtrFromTime t s =
  getPhasePtrFromIdx (Z.of_nat (lower_bound (time_schedule_ s) t)) s.
Proof. reflexivity. Qed.

Lemma getSwitchEventFromIdx_run idx s :
  getSwitchEventFromIdx idx s =
  match vec_at (phase_schedule_ s) idx,
        vec_at (phase_schedule_ s) (size_t_wrap (idx + 1)),
        vec_at (time_schedule_ s) (size_t_wrap (idx + 1)) with
  | Some pre, Some post, Some t => Some (mkSwitchEvent pre post t, s)
  | _, _, _ => None
  end.
Proof.
  unfold getSwitchEventFromIdx, getPhasePtr, getEndTimeFromIdx,
    mbind, method_bind, defined. simpl.
  destruct (vec_at (phase_schedule_ s) idx); [|done].
  destruct (vec_at (phase_schedule_ s) _); [|done].
  by destruct (vec_at (time_schedule_ s) _).
Qed.

Lemma getSwitchEventFromTime_run t s :
  getSwitchEventFromTime t s =
  getSwitchEventFromIdx (Z.of_nat (lower_bound (time_schedule_ s) t)) s.
Proof. reflexivity. Qed.

Lemma fmap_pair_pure {A} (o : option A) s a s' :
  (λ a, (a, s)) <$> o = Some (a, s') → s' = s.
Proof. destruct o; simpl; congruence. Qed.

Lemma getNumPhases_pure : pure getNumPhases.
Proof. intros s a s'. rewrite getNumPhases_run. congruence. Qed.

Lemma getNumSwitches_pure : pure getNumSwitches.
Proof. intros s a s'. rewrite getNumSwitches_run. congruence. Qed.

Lemma getStartTimeFromIdx_pure idx : pure (getStartTimeFromIdx idx).
Proof. intros s a s'. rewrite getStartTimeFromIdx_run. apply fmap_pair_pure. Qed.

Lemma getEndTimeFromIdx_pure idx : pure (getEndTimeFromIdx idx).
Proof. intros s a s'. rewrite getEndTimeFromIdx_run. apply fmap_pair_pure. Qed.

Lemma getPhasePtrFromIdx_pure idx : pure (getPhasePtrFromIdx idx).
Proof. intros s a s'. rewrite getPhasePtrFromIdx_run. apply fmap_pair_pure. Qed.

Lemma getIdxFromTime_pure t : pure (getIdxFromTime t).
Proof. intros s a s'. rewrite getIdxFromTime_run. congruence. Qed.

Lemma getPhasePtrFromTime_pure t : pure (getPhasePtrFromTime t).
Proof. intros s a s'. rewrite getPhasePtrFromTime_run. apply getPhasePtrFromIdx_pure. Qed.

Lemma getSwitchEventFromIdx_pure idx : pure (getSwitchEventFromIdx idx).
Proof.
  intros s a s'. rewrite getSwitchEventFromIdx_run.
  repeat case_match; congruence.
Qed.

Lemma getSwitchEventFromTime_pure t : pure (getSwitchEventFromTime t).
Proof.
  intros s a s'. rewrite getSwitchEventFromTime_run. apply getSwitchEventFromIdx_pure.
Qed.

Lemma state_after_pure {A} (m : method A) s s' :
  pure m → state_after m s = Some s' → s' = s.
Proof.
  unfold state_after. intros Hm. destruct (m s) as [[a s'']|] eqn:Hs; simpl; [|done].
  intros [= <-]. by eapply Hm.
Qed.

End Methods.

(** The queries do not write to the object: the facts above, for [auto]. *)
Create HintDb frame discriminated.
#[export] Hint Resolve getNumPhases_pure getNumSwitches_pure getStartTimeFromIdx_pure
  getEndTimeFromIdx_pure getPhasePtrFromIdx_pure getIdxFromTime_pure
  getPhasePtrFromTime_pure getSwitchEventFromIdx_pure getSwitchEventFromTime_pure
  : frame.

(** ** Runs of calls *)

Section Runs.
Context {PhasePtr_t : Type} `{TimeOps Time}.
Implicit Types (s : PhaseSequence PhasePtr_t Time) (p : PhasePtr_t) (d t : Time).

(** [addPhase] only ever extends the two vectors at their ends. *)
Lemma addPhase_prefix p d s s' :
  addPhase p d s = Some ((), s') →
  phase_schedule_ s `prefix_of` phase_schedule_ s' ∧
  time_schedule_ s `prefix_of` time_schedule_ s'.
Proof.
  rewrite addPhase_run. destruct (vec_back _) as [b|]; [|done].
  intros [= <-]. simpl. split; by apply prefix_app_r.
Qed.

Lemma exec_query (c : call PhasePtr_t Time) s s' :
  is_query c = true → exec c s = Some s' → s' = s.
Proof.
  destruct c; simpl; [done|..]; intros _ Hs;
    apply state_after_pure in Hs as ->; auto with frame.
Qed.

Lemma exec_addPhase p d s s' :
  exec (call_addPhase p d) s = Some s' ↔ addPhase p d s = Some ((), s').
Proof.
  simpl. unfold state_after.
  destruct (addPhase p d s) as [[[] s'']|]; simpl; [|done].
  split; congruence.
Qed.

Lemma exec_prefix (c : call PhasePtr_t Time) s s' :
  exec c s = Some s' →
  phase_schedule_ s `prefix_of` phase_schedule_ s' ∧
  time_schedule_ s `prefix_of` time_schedule_ s'.
Proof.
  destruct (is_query c) eqn:Hc.
  - intros Hs. by apply exec_query in Hs as ->.
  - destruct c; try done. rewrite exec_addPhase. apply addPhase_prefix.
Qed.

Lemma exec_all_prefix (cs : list (call PhasePtr_t Time)) s s' :
  exec_all cs s = Some s' →
  phase_schedule_ s `prefix_of` phase_schedule_ s' ∧
  time_schedule_ s `prefix_of` time_schedule_ s'.
Proof.
  revert s. induction cs as [|c cs IH]; intros s; simpl.
  - by intros [= <-].
  - destruct (exec c s) as [s1|] eqn:Hc; [|done]. intros Hcs.
    destruct (exec_prefix _ _ _ Hc) as [Hp Ht].
    destruct (IH _ Hcs) as [Hp' Ht'].
    split; by etrans.
Qed.

(** *** One boundary time more than phases *)

Lemma consistent_new (start : Time) :
  consistent (PhaseSequence_new (PhasePtr_t:=PhasePtr_t) start).
Proof. reflexivity. Qed.

Lemma consistent_back s : consistent s → is_Some (vec_back (time_schedule_ s)).
Proof.
  unfold consistent, vec_back. intros Hs. apply last_is_Some.
  intros Hnil. rewrite Hnil in Hs. simpl in Hs. lia.
Qed.

Lemma consistent_addPhase p d s s' :
  consistent s → addPhase p d s = Some ((), s') → consistent s'.
Proof.
  unfold consistent. rewrite addPhase_run.
  destruct (vec_back _); [|done]. intros Hs [= <-]. simpl.
  unfold push_back. rewrite !length_app. simpl. lia.
Qed.

Lemma consistent_exec (c : call PhasePtr_t Time) s s' :
  consistent s → exec c s = Some s' → consistent s'.
Proof.
  intros Hs. destruct (is_query c) eqn:Hc.
  - intros Hq. by apply exec_query in Hq as ->.
  - destruct c; try done. rewrite exec_addPhase. by apply consistent_addPhase.
Qed.

(** Whatever is called on a constructed object, and with whatever
    durations, the two vectors stay in step. *)
Lemma consistent_exec_all (cs : list (call PhasePtr_t Time)) s s' :
  consistent s → exec_all cs s = Some s' → consistent s'.
Proof.
  revert s. induction cs as [|c cs IH]; intros s Hs; simpl.
  - by intros [= <-].
  - destruct (exec c s) as [s1|] eqn:Hc; [|done].
    apply IH. by eapply consistent_exec.
Qed.

Lemma addPhase_defined p d s : consistent s → is_Some (addPhase p d s).
Proof.
  intros Hs. rewrite addPhase_run.
  by destruct (consistent_back _ Hs) as [b ->].
Qed.

Lemma built_consistent s : built s → consistent s.
Proof.
  induction 1 as [start|s p d s' _ IH _ Hadd].
  - apply consistent_new.
  - by eapply consistent_addPhase.
Qed.
End Runs.

(** ** Sequences with the boundary times in order *)

Section Schedule.
Context {PhasePtr_t : Type} `{TimeLaws Time}.
Implicit Types (s : PhaseSequence PhasePtr_t Time) (p : PhasePtr_t) (d t : Time).

Lemma invariant_new (start : Time) :
  invariant (PhaseSequence_new (PhasePtr_t:=PhasePtr_t) start).
Proof. split; [done|]. apply non_decreasing_singleton. Qed.

(** An append keeps the invariant when the new boundary time is not below
    the last one. *)
Lemma invariant_addPhase p d s (b : Time) :
  invariant s → vec_back (time_schedule_ s) = Some b →
  t_le b (t_add b d) = true →
  ∃ s', addPhase p d s = Some ((), s') ∧ invariant s'.
Proof.
  intros [Hlen Hsorted] Hb Hd.
  rewrite addPhase_run, Hb. eexists; split; [done|]. split; simpl.
  - unfold consistent in *. simpl. unfold push_back. rewrite !length_app. simpl. lia.
  - by eapply non_decreasing_snoc.
Qed.

Lemma built_without_overflow_invariant s : built_without_overflow s → invariant s.
Proof.
  induction 1 as [start|s p d b s' _ IH _ Hb Hd Hadd].
  - apply invariant_new.
  - destruct (invariant_addPhase p d s b IH Hb Hd) as (s'' & Hadd' & Hinv).
    congruence.
Qed.

Lemma built_without_overflow_built s : built_without_overflow s → built s.
Proof.
  induction 1 as [start|s p d b s' _ IH Hd _ _ Hadd].
  - apply built_new.
  - by eapply built_addPhase.
Qed.

Lemma getStartTimeFromIdx_lookup idx s a s' :
  getStartTimeFromIdx idx s = Some (a, s') →
  0 ≤ idx ∧ time_schedule_ s !! Z.to_nat idx = Some a.
Proof.
  rewrite getStartTimeFromIdx_run. unfold vec_at.
  case_decide; [|done]. destruct (_ !! _); simpl; [|done].
  intros [= -> _]. done.
Qed.

(** What the search returns for a time inside a phase: the index of the
    boundary that ends the phase. *)
Lemma getIdxFromTime_inside_phase s (i : Z) (a b t : Time) :
  invariant s → representable s →
  getStartTimeFromIdx i s = Some (a, s) →
  getEndTimeFromIdx i s = Some (b, s) →
  t_lt a t = true → t_le t b = true →
  getIdxFromTime t s = Some (i + 1, s).
Proof.
  intros [_ Hsorted] Hrep Ha Hb Hat Htb.
  apply getStartTimeFromIdx_lookup in Ha as [Hi Ha].
  pose proof (lookup_lt_Some _ _ _ Ha) as Hlt.
  unfold representable, vec_size in Hrep.
  rewrite getEndTimeFromIdx_run, size_t_wrap_small in Hb by lia.
  unfold vec_at in Hb. case_decide; [|lia].
  destruct (time_schedule_ s !! Z.to_nat (i + 1)) as [b'|] eqn:Hb'; simpl in Hb; [|done].
  injection Hb as ->.
  replace (Z.to_nat (i + 1)) with (S (Z.to_nat i)) in Hb' by lia.
  rewrite getIdxFromTime_run. do 2 f_equal.
  rewrite (lower_bound_partition _ _ (S (Z.to_nat i))); [lia|].
  repeat split.
  - apply lookup_lt_Some in Hb'. lia.
  - intros j x Hx Hj. eapply t_le_lt_trans; [|exact Hat].
    apply (non_decreasing_lookup (time_schedule_ s) j (Z.to_nat i)); [done|lia|done..].
  - intros j x Hx Hj.
    assert (t_le t x = true) as Htx.
    { eapply t_le_trans; [exact Htb|].
      by apply (non_decreasing_lookup (time_schedule_ s) (S (Z.to_nat i)) j). }
    unfold t_le in Htx. by destruct (t_lt x t).
Qed.

(** What the search returns at a boundary time above the boundary before
    it: the index of that boundary. *)
Lemma getIdxFromTime_at_boundary s (k : Z) (a b : Time) :
  invariant s → 0 < k →
  getStartTimeFromIdx (k - 1) s = Some (a, s) →
  getStartTimeFromIdx k s = Some (b, s) →
  t_lt a b = true →
  getIdxFromTime b s = Some (k, s).
Proof.
  intros [_ Hsorted] Hk Ha Hb Hab.
  apply getStartTimeFromIdx_lookup in Ha as [_ Ha].
  apply getStartTimeFromIdx_lookup in Hb as [_ Hb].
  replace (Z.to_nat k) with (S (Z.to_nat (k - 1))) in Hb by lia.
  rewrite getIdxFromTime_run. do 2 f_equal.
  rewrite (lower_bound_at_entry _ _ _ _ Hsorted Ha Hb Hab). lia.
Qed.
End Schedule.

(** ** [int] time

    The order of [int] obeys the laws, and the sum of a time and a
    non-negative duration is in order exactly when it does not overflow. *)

#[export] Instance int_TimeLaws : TimeLaws Z.
Proof.
  split; unfold t_le; simpl.
  - intros x. apply Z.ltb_irrefl.
  - intros x y z Hxy Hyz. apply Z.ltb_lt in Hxy, Hyz. apply Z.ltb_lt. lia.
  - intros x y z Hxy Hyz. apply negb_true_iff, Z.ltb_ge in Hxy, Hyz.
    apply negb_true_iff, Z.ltb_ge. lia.
Qed.

Lemma int_wrap_in_range (z : Z) : INT_MIN ≤ z ≤ INT_MAX → int_wrap z = z.
Proof. unfold INT_MIN, INT_MAX, int_wrap. intros Hz. rewrite Z.mod_small; lia. Qed.

Lemma int_wrap_above (z : Z) :
  INT_MAX < z ≤ INT_MAX + INT_MAX → int_wrap z = z - 4294967296.
Proof.
  unfold INT_MAX, int_wrap. intros Hz.
  replace (z + 2147483648) with (z - 2147483648 + 1 * 4294967296) by lia.
  rewrite Z.mod_add by lia. rewrite Z.mod_small; lia.
Qed.

Lemma int_sum_in_order (b d : Z) :
  INT_MIN ≤ b ≤ INT_MAX → 0 ≤ d ≤ INT_MAX →
  (t_le b (t_add b d) = true ↔ b + d ≤ INT_MAX).
Proof.
  intros Hb Hd. unfold t_le. simpl. unfold int_add.
  rewrite negb_true_iff, Z.ltb_ge.
  destruct (decide (b + d ≤ INT_MAX)) as [Hin|Hout].
  - rewrite int_wrap_in_range by (unfold INT_MIN, INT_MAX in *; lia). lia.
  - rewrite int_wrap_above by (unfold INT_MIN, INT_MAX in *; lia).
    unfold INT_MIN, INT_MAX in *. lia.
Qed.

Lemma three_phases_is_built : built three_phases.
Proof.
  apply (built_addPhase (mkPhaseSequence [10%nat; 11%nat] [0; 2; 5]) 12%nat 1);
    [|reflexivity..].
  apply (built_addPhase (mkPhaseSequence [10%nat] [0; 2]) 11%nat 3); [|reflexivity..].
  apply (built_addPhase (PhaseSequence_new 0) 10%nat 2); [|reflexivity..].
  apply built_new.
Defined.

(** The two switching events of the class comment, [{p0, p1, t1}] and
    [{p1, p2, t2}], and what the search returns at and around the boundary
    times. *)
Example three_phases_events :
  getNumPhases three_phases = Some (3, three_phases) ∧
  getNumSwitches three_phases = Some (2, three_phases) ∧
  getSwitchEventFromIdx 0 three_phases
    = Some (mkSwitchEvent 10%nat 11%nat 2, three_phases) ∧
  getSwitchEventFromIdx 1 three_phases
    = Some (mkSwitchEvent 11%nat 12%nat 5, three_phases).
Proof. done. Qed.

Example three_phases_boundaries :
  getIdxFromTime 0 three_phases = Some (0, three_phases) ∧
  getIdxFromTime 2 three_phases = Some (1, three_phases) ∧
  getIdxFromTime 5 three_phases = Some (2, three_phases) ∧
  getIdxFromTime 6 three_phases = Some (3, three_phases) ∧
  getIdxFromTime 7 three_phases = Some (4, three_phases) ∧
  getIdxFromTime (-1) three_phases = Some (0, three_phases).
Proof. done. Qed.

Example negative_duration_reached :
  exec_all [call_addPhase 10%nat 5; call_addPhase 11%nat (-4); call_addPhase 12%nat 5]
    (PhaseSequence_new 0) = Some negative_duration.
Proof. reflexivity. Qed.

Lemma three_phases_in_order : built_without_overflow three_phases.
Proof.
  apply (built_without_overflow_addPhase
           (mkPhaseSequence [10%nat; 11%nat] [0; 2; 5]) 12%nat 1 5); [|reflexivity..].
  apply (built_without_overflow_addPhase
           (mkPhaseSequence [10%nat] [0; 2]) 11%nat 3 2); [|reflexivity..].
  apply (built_without_overflow_addPhase (PhaseSequence_new 0) 10%nat 2 0);
    [|reflexivity..].
  apply built_without_overflow_new.
Defined.

Lemma zero_durations_in_order : built_without_overflow zero_durations.
Proof.
  apply (built_without_overflow_addPhase
           (mkPhaseSequence [10%nat; 11%nat] [0; 2; 2]) 12%nat 0 2); [|reflexivity..].
  apply (built_without_overflow_addPhase
           (mkPhaseSequence [10%nat] [0; 2]) 11%nat 0 2); [|reflexivity..].
  apply (built_without_overflow_addPhase (PhaseSequence_new 0) 10%nat 2 0);
    [|reflexivity..].
  apply built_without_overflow_new.
Defined.

(** Non-negative durations alone do not keep the boundary times in order. *)
Lemma overflowed_is_built : built overflowed.
Proof.
  apply (built_addPhase
           (mkPhaseSequence [10%nat; 11%nat] [INT_MAX - 1; INT_MAX; INT_MIN]) 12%nat 5);
    [|reflexivity..].
  apply (built_addPhase (mkPhaseSequence [10%nat] [INT_MAX - 1; INT_MAX]) 11%nat 1);
    [|reflexivity..].
  apply (built_addPhase (PhaseSequence_new (INT_MAX - 1)) 10%nat 1); [|reflexivity..].
  apply built_new.
Defined.

Lemma overflowed_once_is_built : built overflowed_once.
Proof.
  apply (built_addPhase (PhaseSequence_new INT_MAX) 10%nat 1); [|reflexivity..].
  apply built_new.
Defined.

Lemma zero_durations_is_built : built zero_durations.
Proof.
  apply (built_addPhase (mkPhaseSequence [10%nat; 11%nat] [0; 2; 2]) 12%nat 0);
    [|reflexivity..].
  apply (built_addPhase (mkPhaseSequence [10%nat] [0; 2]) 11%nat 0); [|reflexivity..].
  apply (built_addPhase (PhaseSequence_new 0) 10%nat 2); [|reflexivity..].
  apply built_new.
Defined.

(** * The claims *)

(** C1 (index/time consistency).  The claim: on a sequence built with
    non-negative durations, [getIdxFromTime(t)] is [i] for every [t] with
    [getStartTimeFromIdx(i) <= t < getEndTimeFromIdx(i)].  The code does not
    do this: on the three-phase sequence with boundaries 0, 2, 5, 6 the time
    1 lies in phase 0, which runs from 0 to 2, and [getIdxFromTime(1)]
    returns 1. *)
Theorem C1_getIdxFromTime_inside_phase_zero :
  built three_phases ∧
  getStartTimeFromIdx 0 three_phases = Some (0, three_phases) ∧
  getEndTimeFromIdx 0 three_phases = Some (2, three_phases) ∧
  t_le 0 1 = true ∧ t_lt 1 2 = true ∧
  getIdxFromTime 1 three_phases = Some (1, three_phases).
Proof. split; [apply three_phases_is_built|]. repeat split. Qed.

(** C2, as stated, fails.  With boundaries 0, 2, 2, 2 (phases of duration 2,
    0 and 0) the interior boundary 2 is where phase 2 starts and phase 1
    ends, and the search at its time returns 1; and phase 2, of duration
    zero, was appended directly after phase 1, yet the search at the time
    they share resolves to phase 1, the earlier of the two.  On a sequence
    with a negative duration the search can miss even a boundary that lies
    above the one before it: with boundaries 0, 5, 1, 6 the search at time 5,
    where phase 1 starts, returns 3.  So it can when a sum overflows, all
    durations being non-negative: with start time [INT_MAX - 1] and durations
    1, 1 and 5 the boundaries are [INT_MAX - 1], [INT_MAX], [INT_MIN],
    [INT_MIN + 5], and the search at time [INT_MAX], where phase 1 starts,
    returns 4. *)
Lemma C2_counterexample :
  ¬ (∀ (s : PhaseSequence nat Z) (k n t : Z),
       built s → getNumPhases s = Some (n, s) → 0 < k < n →
       getStartTimeFromIdx k s = Some (t, s) →
       getIdxFromTime t s = Some (k, s)) ∧
  ¬ (∀ (s s1 s2 : PhaseSequence nat Z) (p q : nat) (d n t : Z),
       built s → t_le 0 d = true →
       addPhase p d s = Some ((), s1) → addPhase q 0 s1 = Some ((), s2) →
       getNumPhases s2 = Some (n, s2) →
       getStartTimeFromIdx (n - 1) s2 = Some (t, s2) →
       getIdxFromTime t s2 = Some (n - 1, s2)) ∧
  ¬ (∀ (s : PhaseSequence nat Z) (k n a b : Z),
       consistent s → getNumPhases s = Some (n, s) → 0 < k < n →
       getStartTimeFromIdx (k - 1) s = Some (a, s) →
       getStartTimeFromIdx k s = Some (b, s) →
       t_lt a b = true →
       getIdxFromTime b s = Some (k, s)) ∧
  ¬ (∀ (s : PhaseSequence nat Z) (k n a b : Z),
       built s → getNumPhases s = Some (n, s) → 0 < k < n →
       getStartTimeFromIdx (k - 1) s = Some (a, s) →
       getStartTimeFromIdx k s = Some (b, s) →
       t_lt a b = true →
       getIdxFromTime b s = Some (k, s)).
Proof.
  split; [|split; [|split]].
  - intros Hclaim.
    assert (getIdxFromTime 2 zero_durations = Some (2, zero_durations)) as Hidx.
    { apply (Hclaim zero_durations 2 3 2 zero_durations_is_built);
        [reflexivity|lia|reflexivity]. }
    discriminate Hidx.
  - intros Hclaim.
    assert (getIdxFromTime 2 zero_durations = Some (3 - 1, zero_durations)) as Hidx.
    { apply (Hclaim (mkPhaseSequence [10%nat] [0; 2])
               (mkPhaseSequence [10%nat; 11%nat] [0; 2; 2]) zero_durations
               11%nat 12%nat 0 3 2); [|reflexivity..].
      apply (built_addPhase (PhaseSequence_new 0) 10%nat 2); [|reflexivity..].
      apply built_new. }
    discriminate Hidx.
  - intros Hclaim.
    assert (getIdxFromTime 5 negative_duration = Some (1, negative_duration)) as Hidx.
    { apply (Hclaim negative_duration 1 3 0 5); [reflexivity|reflexivity|lia|reflexivity..]. }
    discriminate Hidx.
  - intros Hclaim.
    assert (getIdxFromTime INT_MAX overflowed = Some (1, overflowed)) as Hidx.
    { apply (Hclaim overflowed 1 3 (INT_MAX - 1) INT_MAX overflowed_is_built);
        [reflexivity|lia|reflexivity..]. }
    discriminate Hidx.
Qed.

(** C3, as stated, fails for [int] time: appending to a fresh sequence with
    start time [INT_MAX] a phase of duration 1, which is non-negative, gives
    the boundary times [INT_MAX], [INT_MIN], and these are not
    non-decreasing. *)
Lemma C3_counterexample :
  ¬ (∀ (s s' : PhaseSequence nat Z) (p : nat) (d : Z),
       invariant s → t_le t_zero d = true →
       addPhase p d s = Some ((), s') → invariant s') ∧
  ¬ (∀ s : PhaseSequence nat Z, built s → invariant s) ∧
  addPhase 10%nat 1 (PhaseSequence_new INT_MAX) = Some ((), overflowed_once) ∧
  ¬ non_decreasing (time_schedule_ overflowed_once).
Proof.
  assert (¬ non_decreasing (time_schedule_ overflowed_once)) as Hunsorted.
  { intros Hsorted. specialize (Hsorted 0%nat INT_MAX INT_MIN eq_refl eq_refl).
    discriminate Hsorted. }
  split; [|split; [|split]]; [| |reflexivity|done].
  - intros Hclaim. apply Hunsorted.
    apply (Hclaim (PhaseSequence_new INT_MAX) overflowed_once 10%nat 1);
      [|reflexivity..].
    split; [reflexivity|]. intros [|i] x y Hx Hy; done.
  - intros Hclaim. apply Hunsorted. apply (Hclaim overflowed_once).
    apply overflowed_once_is_built.
Qed.

Section Claims_ordered.
Context {PhasePtr_t : Type} `{TimeLaws Time}.
Implicit Types (s : PhaseSequence PhasePtr_t Time) (p : PhasePtr_t) (d t : Time).

(** C2 (boundary convention), amended.  On a sequence built with
    non-negative durations none of which takes a sum below the boundary time
    it is added to (no sum overflows), at the time of an interior boundary
    [k] that lies above the boundary before it (phase [k-1] has positive
    length), [getIdxFromTime] returns [k], the phase that starts at the
    boundary and not phase [k-1] that ends there.  In particular, when on
    such a sequence a phase of duration zero has been appended directly
    after a phase of positive length, the search at the time the two share
    resolves to the later one. *)
Theorem C2_boundary_resolves_to_starting_phase :
  (∀ s (k n : Z) (a b : Time),
     built_without_overflow s →
     getNumPhases s = Some (n, s) → 0 < k < n →
     getStartTimeFromIdx (k - 1) s = Some (a, s) →
     getStartTimeFromIdx k s = Some (b, s) →
     t_lt a b = true →
     getIdxFromTime b s = Some (k, s)) ∧
  (∀ s p q d s1 s2 (n : Z) (a b : Time),
     t_le t_zero d = true →
     addPhase p d s = Some ((), s1) → addPhase q t_zero s1 = Some ((), s2) →
     built_without_overflow s2 →
     getNumPhases s2 = Some (n, s2) →
     getStartTimeFromIdx (n - 2) s2 = Some (a, s2) →
     getStartTimeFromIdx (n - 1) s2 = Some (b, s2) →
     t_lt a b = true →
     getIdxFromTime b s2 = Some (n - 1, s2)).
Proof.
  split.
  - intros s k n a b Hs _ [Hk _] Ha Hb Hab.
    eapply getIdxFromTime_at_boundary; [by apply built_without_overflow_invariant|done..].
  - intros s p q d s1 s2 n a b _ _ _ Hs2 Hn Ha Hb Hab.
    pose proof (getStartTimeFromIdx_lookup _ _ _ _ Ha) as [Hn2 _].
    eapply getIdxFromTime_at_boundary;
      [by apply built_without_overflow_invariant|lia| |done..].
    by replace (n - 1 - 1) with (n - 2) by lia.
Qed.

(** C3 (invariant), amended.  The constructor establishes that there is one
    boundary time more than there are phases and that the boundary times are
    non-decreasing, and every [addPhase] with a non-negative duration whose
    sum [time_schedule_.back() + duration] is not below
    [time_schedule_.back()] (the sum does not overflow) preserves it; so it
    holds of every sequence built by such appends. *)
Theorem C3_invariant_established_and_preserved :
  (∀ start : Time, invariant (PhaseSequence_new (PhasePtr_t:=PhasePtr_t) start)) ∧
  (∀ s p d (b : Time),
     invariant s → t_le t_zero d = true →
     vec_back (time_schedule_ s) = Some b → t_le b (t_add b d) = true →
     ∃ s', addPhase p d s = Some ((), s') ∧ invariant s') ∧
  (∀ s, built_without_overflow s → invariant s).
Proof.
  split; [apply invariant_new|]. split; [|apply built_without_overflow_invariant].
  intros s p d b Hs _ Hb Hd. by apply (invariant_addPhase p d s b).
Qed.

(** C10 (monotone and bounded search).  On a sequence built with
    non-negative durations [getIdxFromTime] is monotone in the time, and its
    result lies between 0 and [getNumPhases() + 1], the length of the time
    schedule. *)
Theorem C10_getIdxFromTime_monotone_and_bounded s :
  built s →
  (∀ t1 t2 : Time, t_le t1 t2 = true →
     ∃ i1 i2 : Z,
       getIdxFromTime t1 s = Some (i1, s) ∧ getIdxFromTime t2 s = Some (i2, s) ∧
       i1 ≤ i2) ∧
  (∀ t : Time,
     ∃ i n : Z,
       getIdxFromTime t s = Some (i, s) ∧ getNumPhases s = Some (n, s) ∧
       0 ≤ i ≤ n + 1 ∧ n + 1 = vec_size (time_schedule_ s)).
Proof.
  intros Hs. pose proof (built_consistent s Hs) as Hlen. split.
  - intros t1 t2 Ht. do 2 eexists. rewrite !getIdxFromTime_run.
    split; [done|]. split; [done|].
    apply Nat2Z.inj_le. by apply lower_bound_mono.
  - intros t. do 2 eexists. rewrite getIdxFromTime_run, getNumPhases_run.
    split; [done|]. split; [done|].
    pose proof (lower_bound_le_length (time_schedule_ s) t).
    unfold consistent in Hlen. unfold vec_size. lia.
Qed.
End Claims_ordered.

Lemma C2_witness : getIdxFromTime 2 three_phases = Some (1, three_phases).
Proof.
  apply (proj1 C2_boundary_resolves_to_starting_phase three_phases 1 3 0 2
           three_phases_in_order); [reflexivity|lia|reflexivity..].
Defined.

Lemma C3_witness : invariant three_phases.
Proof.
  apply (proj2 (proj2 (C3_invariant_established_and_preserved
                         (PhasePtr_t:=nat) (Time:=Z)))).
  apply three_phases_in_order.
Defined.

Lemma C10_witness :
  ∃ i1 i2 : Z,
    getIdxFromTime 1 three_phases = Some (i1, three_phases) ∧
    getIdxFromTime 4 three_phases = Some (i2, three_phases) ∧ i1 ≤ i2.
Proof.
  apply (proj1 (C10_getIdxFromTime_monotone_and_bounded three_phases three_phases_is_built)).
  reflexivity.
Defined.

Section Claims_general.
Context {PhasePtr_t : Type} `{TimeOps Time}.
Implicit Types (s : PhaseSequence PhasePtr_t Time) (p : PhasePtr_t) (d t : Time).

Lemma getNumPhases_value s (n : Z) s' :
  getNumPhases s = Some (n, s') → n = vec_size (phase_schedule_ s).
Proof. rewrite getNumPhases_run. congruence. Qed.

Lemma getStartTimeFromIdx_at idx s (a : Time) :
  vec_at (time_schedule_ s) idx = Some a → getStartTimeFromIdx idx s = Some (a, s).
Proof. rewrite getStartTimeFromIdx_run. by intros ->. Qed.

Lemma getEndTimeFromIdx_at idx s (a : Time) :
  vec_at (time_schedule_ s) (size_t_wrap (idx + 1)) = Some a →
  getEndTimeFromIdx idx s = Some (a, s).
Proof. rewrite getEndTimeFromIdx_run. by intros ->. Qed.

Lemma getPhasePtrFromIdx_at idx s (a : PhasePtr_t) :
  vec_at (phase_schedule_ s) idx = Some a → getPhasePtrFromIdx idx s = Some (a, s).
Proof. rewrite getPhasePtrFromIdx_run. by intros ->. Qed.

(** On a sequence with at least one phase the count of switches is the
    count of phases less one. *)
Lemma getNumSwitches_nonempty s :
  representable s → consistent s → 0 < vec_size (phase_schedule_ s) →
  getNumSwitches s = Some (vec_size (phase_schedule_ s) - 1, s).
Proof.
  unfold representable, consistent, vec_size. intros Hrep Hlen Hpos.
  rewrite getNumSwitches_run, size_t_wrap_small; [done|].
  unfold vec_size. lia.
Qed.

(** C4 (append).  After [addPhase(p, d)], for every duration [d] and so for
    every non-negative one, there is one phase more, the end time of the new
    last phase is the previous last boundary time plus [d], and the handle
    of the new last phase is [p].  The previous last boundary time is
    [time_schedule_.back()] before the call: the end time of the previous
    last phase when there is one. *)
Theorem C4_addPhase_appends s p d (n : Z) (b : Time) :
  consistent s → vec_size (time_schedule_ s) < SIZE_MAX →
  getNumPhases s = Some (n, s) →
  vec_back (time_schedule_ s) = Some b →
  (0 < n → getEndTimeFromIdx (n - 1) s = Some (b, s)) ∧
  ∃ s', addPhase p d s = Some ((), s') ∧
        getNumPhases s' = Some (n + 1, s') ∧
        getEndTimeFromIdx (n + 1 - 1) s' = Some (t_add b d, s') ∧
        getPhasePtrFromIdx (n + 1 - 1) s' = Some (p, s').
Proof.
  intros Hlen Hroom Hn Hb. apply getNumPhases_value in Hn as ->.
  unfold consistent in Hlen. unfold vec_size in Hroom.
  assert (vec_size (time_schedule_ s) = vec_size (phase_schedule_ s) + 1) as Hsize
    by (unfold vec_size; lia).
  split.
  - intros Hpos. apply getEndTimeFromIdx_at.
    rewrite size_t_wrap_small by (unfold vec_size; lia).
    destruct (vec_back_at (time_schedule_ s)) as [Hat|Hnil].
    + rewrite <-Hb, Hat. f_equal. lia.
    + rewrite Hnil in Hb. done.
  - rewrite addPhase_run, Hb. eexists. split; [done|].
    replace (vec_size (phase_schedule_ s) + 1 - 1) with (vec_size (phase_schedule_ s))
      by lia.
    split; [|split].
    + rewrite getNumPhases_run. simpl. by rewrite vec_size_push_back.
    + apply getEndTimeFromIdx_at. simpl.
      rewrite size_t_wrap_small by (unfold vec_size; lia).
      rewrite <-Hsize. apply vec_at_push_back_new.
    + apply getPhasePtrFromIdx_at. simpl. apply vec_at_push_back_new.
Qed.

(** C5 (switch events), amended.  On a sequence with at least one phase,
    for every [i] with [0 <= i < getNumSwitches()], [getSwitchEventFromIdx(i)]
    returns the event made of [getPhasePtrFromIdx(i)],
    [getPhasePtrFromIdx(i+1)] and the time [getEndTimeFromIdx(i)], which is
    also [getStartTimeFromIdx(i+1)]. *)
Theorem C5_getSwitchEventFromIdx_event s (i n m : Z) :
  consistent s → representable s →
  getNumPhases s = Some (n, s) → 0 < n →
  getNumSwitches s = Some (m, s) → 0 ≤ i < m →
  ∃ pre post t,
    getSwitchEventFromIdx i s = Some (mkSwitchEvent pre post t, s) ∧
    getPhasePtrFromIdx i s = Some (pre, s) ∧
    getPhasePtrFromIdx (i + 1) s = Some (post, s) ∧
    getEndTimeFromIdx i s = Some (t, s) ∧
    getStartTimeFromIdx (i + 1) s = Some (t, s).
Proof.
  intros Hlen Hrep Hn Hpos Hm Hi. apply getNumPhases_value in Hn as ->.
  rewrite getNumSwitches_nonempty in Hm by done. injection Hm as <-.
  unfold consistent in Hlen. unfold representable in Hrep.
  assert (vec_size (time_schedule_ s) = vec_size (phase_schedule_ s) + 1) as Hsize
    by (unfold vec_size; lia).
  destruct (vec_at_in_bounds (phase_schedule_ s) i) as [pre Hpre]; [lia|].
  destruct (vec_at_in_bounds (phase_schedule_ s) (i + 1)) as [post Hpost]; [lia|].
  destruct (vec_at_in_bounds (time_schedule_ s) (i + 1)) as [t Ht]; [lia|].
  exists pre, post, t.
  rewrite getSwitchEventFromIdx_run, getEndTimeFromIdx_run, getStartTimeFromIdx_run,
    !getPhasePtrFromIdx_run, size_t_wrap_small by lia.
  by rewrite Hpre, Hpost, Ht.
Qed.

(** C6 (number of switches).  The claim: [getNumSwitches()] is
    [max(0, getNumPhases() - 1)], so 0 on a sequence without phases.  The
    code does not do this: on a freshly constructed sequence
    [getNumPhases()] is 0 and [getNumSwitches()] is the largest
    [std::size_t]. *)
Theorem C6_getNumSwitches_on_empty (start : Time) :
  let s := PhaseSequence_new (PhasePtr_t:=PhasePtr_t) start in
  getNumPhases s = Some (0, s) ∧
  getNumSwitches s = Some (SIZE_MAX, s) ∧
  SIZE_MAX = 18446744073709551615 ∧
  SIZE_MAX ≠ Z.max 0 (0 - 1).
Proof. done. Qed.

(** C7 (negative duration), amended.  [addPhase(p, d)] with a negative [d]
    is not rejected: it appends [p] and the boundary time [back() + d] as
    for any other duration, the sequence is changed, and whenever
    [back() + d] is below [back()] the time schedule is no longer
    non-decreasing. *)
Theorem C7_addPhase_negative_duration_appends s p d :
  consistent s → t_lt d t_zero = true →
  ∃ (b : Time) s',
    vec_back (time_schedule_ s) = Some b ∧
    addPhase p d s = Some ((), s') ∧
    phase_schedule_ s' = phase_schedule_ s ++ [p] ∧
    time_schedule_ s' = time_schedule_ s ++ [t_add b d] ∧
    s' ≠ s ∧
    (t_lt (t_add b d) b = true → ¬ non_decreasing (time_schedule_ s')).
Proof.
  intros Hlen _. destruct (consistent_back s Hlen) as [b Hb].
  exists b. rewrite addPhase_run, Hb. eexists. split; [done|]. split; [done|].
  simpl. unfold push_back. split; [done|]. split; [done|]. split.
  - intros Heq. apply (f_equal (λ s, length (phase_schedule_ s))) in Heq.
    simpl in Heq. rewrite length_app in Heq. simpl in Heq. lia.
  - intros Hlt Hsorted. unfold vec_back in Hb. rewrite last_lookup in Hb.
    assert (length (time_schedule_ s) ≠ 0)%nat as Hne.
    { unfold consistent in Hlen. lia. }
    specialize (Hsorted (pred (length (time_schedule_ s))) b (t_add b d)).
    unfold t_le in Hsorted. rewrite Hlt in Hsorted.
    discriminate Hsorted.
    + by apply lookup_app_l_Some.
    + replace (S (pred (length (time_schedule_ s)))) with (length (time_schedule_ s))
        by lia.
      rewrite lookup_app_r by lia. by rewrite Nat.sub_diag.
Qed.
End Claims_general.

Lemma C4_witness :
  ∃ s', addPhase 12%nat 1 (mkPhaseSequence [10%nat; 11%nat] [0; 2; 5]) = Some ((), s') ∧
        getNumPhases s' = Some (2 + 1, s') ∧
        getEndTimeFromIdx (2 + 1 - 1) s' = Some (t_add 5 1, s') ∧
        getPhasePtrFromIdx (2 + 1 - 1) s' = Some (12%nat, s').
Proof.
  apply (C4_addPhase_appends (mkPhaseSequence [10%nat; 11%nat] [0; 2; 5]) 12%nat 1 2 5);
    reflexivity.
Defined.

(** C5, as stated, fails on the sequence without phases: there
    [getNumSwitches()] is the largest [std::size_t], the index 0 is below it,
    and [getSwitchEventFromIdx(0)] reads [phase_schedule_[0]] of an empty
    vector, so it returns no event. *)
Lemma C5_counterexample :
  ¬ (∀ (s : PhaseSequence nat Z) (i m : Z),
       getNumSwitches s = Some (m, s) → 0 ≤ i < m →
       ∃ pre post t,
         getSwitchEventFromIdx i s = Some (mkSwitchEvent pre post t, s) ∧
         getPhasePtrFromIdx i s = Some (pre, s) ∧
         getPhasePtrFromIdx (i + 1) s = Some (post, s) ∧
         getEndTimeFromIdx i s = Some (t, s) ∧
         getStartTimeFromIdx (i + 1) s = Some (t, s)).
Proof.
  intros Hclaim.
  destruct (Hclaim (PhaseSequence_new 0) 0 SIZE_MAX) as (pre & post & t & Hev & _).
  - reflexivity.
  - unfold SIZE_MAX, SIZE_MODULUS. lia.
  - discriminate Hev.
Qed.

Lemma C5_witness :
  ∃ pre post t,
    getSwitchEventFromIdx 1 three_phases = Some (mkSwitchEvent pre post t, three_phases) ∧
    getPhasePtrFromIdx 1 three_phases = Some (pre, three_phases) ∧
    getPhasePtrFromIdx (1 + 1) three_phases = Some (post, three_phases) ∧
    getEndTimeFromIdx 1 three_phases = Some (t, three_phases) ∧
    getStartTimeFromIdx (1 + 1) three_phases = Some (t, three_phases).
Proof.
  apply (C5_getSwitchEventFromIdx_event three_phases 1 3 2);
    [reflexivity|by vm_compute|reflexivity|lia|reflexivity|lia].
Defined.

(** C7, as stated, fails: appending to a fresh sequence with start time 0 a
    phase of duration -1 returns normally with the phase and the boundary
    time -1 appended, and the boundary times 0, -1 are not non-decreasing. *)
Lemma C7_counterexample :
  ¬ (∀ (s s' : PhaseSequence nat Z) (p : nat) (d : Z),
       built s → t_lt d 0 = true →
       addPhase p d s = Some ((), s') → s' = s) ∧
  addPhase 10%nat (-1) (PhaseSequence_new 0) = Some ((), mkPhaseSequence [10%nat] [0; -1]) ∧
  ¬ non_decreasing [0; -1].
Proof.
  split; [|split].
  - intros Hclaim.
    specialize (Hclaim (PhaseSequence_new 0) (mkPhaseSequence [10%nat] [0; -1])
                  10%nat (-1) (built_new 0)).
    discriminate Hclaim; reflexivity.
  - reflexivity.
  - intros Hsorted. specialize (Hsorted 0%nat 0 (-1)).
    discriminate Hsorted; reflexivity.
Qed.

Lemma C7_witness :
  ∃ (b : Z) s',
    vec_back [0] = Some b ∧
    addPhase 10%nat (-1) (PhaseSequence_new 0) = Some ((), s') ∧
    phase_schedule_ s' = [] ++ [10%nat] ∧
    time_schedule_ s' = [0] ++ [t_add b (-1)] ∧
    s' ≠ PhaseSequence_new 0 ∧
    (t_lt (t_add b (-1)) b = true → ¬ non_decreasing (time_schedule_ s')).
Proof.
  apply (C7_addPhase_negative_duration_appends (PhaseSequence_new 0) 10%nat (-1));
    reflexivity.
Defined.

Section Claims_access.
Context {PhasePtr_t : Type} `{TimeOps Time}.
Implicit Types (s : PhaseSequence PhasePtr_t Time) (p : PhasePtr_t) (d t : Time).

Local Abbreviation pure := (pure_method (PhasePtr_t:=PhasePtr_t) (Time:=Time)).
Local Abbreviation total := (total_method (PhasePtr_t:=PhasePtr_t) (Time:=Time)).

Lemma vec_at_prefix {A} (v w : list A) (i : Z) (a : A) :
  v `prefix_of` w → vec_at v i = Some a → vec_at w i = Some a.
Proof.
  unfold vec_at. intros Hvw. case_decide; [|done].
  intros Ha. by eapply prefix_lookup_Some.
Qed.

Lemma entries_kept s s' :
  phase_schedule_ s `prefix_of` phase_schedule_ s' ∧
  time_schedule_ s `prefix_of` time_schedule_ s' →
  ∀ i : Z,
    (∀ a, getStartTimeFromIdx i s = Some (a, s) →
          getStartTimeFromIdx i s' = Some (a, s')) ∧
    (∀ q, getPhasePtrFromIdx i s = Some (q, s) →
          getPhasePtrFromIdx i s' = Some (q, s')).
Proof.
  intros [Hp Ht] i. split.
  - intros a. rewrite !getStartTimeFromIdx_run.
    destruct (vec_at (time_schedule_ s) i) as [a'|] eqn:Ha; simpl; [|done].
    intros [= ->]. by rewrite (vec_at_prefix _ _ _ _ Ht Ha).
  - intros q. rewrite !getPhasePtrFromIdx_run.
    destruct (vec_at (phase_schedule_ s) i) as [q'|] eqn:Hq; simpl; [|done].
    intros [= ->]. by rewrite (vec_at_prefix _ _ _ _ Hp Hq).
Qed.

(** C8 (out-of-range index), amended.  With an index in its valid range each
    of the four accessors returns the stored entry: [time_schedule_[i]],
    [time_schedule_[i+1]], [phase_schedule_[i]], and the event made of
    [phase_schedule_[i]], [phase_schedule_[i+1]] and [time_schedule_[i+1]].
    With an index outside it none of them reports an error:
    [getStartTimeFromIdx(getNumPhases())] returns the last boundary time,
    [getEndTimeFromIdx(SIZE_MAX)] wraps around to the first boundary time, and
    every other out-of-range index is an unchecked read past the end of a
    vector.  Such a read has no defined result, which is the outcome [None]
    of the model; the class has no error to report, and the model no outcome
    for one. *)
Theorem C8_accessors_are_unchecked s (n : Z) :
  consistent s → representable s → getNumPhases s = Some (n, s) →
  (∀ i : Z, 0 ≤ i < n →
     ∃ a b p,
       time_schedule_ s !! Z.to_nat i = Some a ∧
       time_schedule_ s !! Z.to_nat (i + 1) = Some b ∧
       phase_schedule_ s !! Z.to_nat i = Some p ∧
       getStartTimeFromIdx i s = Some (a, s) ∧
       getEndTimeFromIdx i s = Some (b, s) ∧
       getPhasePtrFromIdx i s = Some (p, s)) ∧
  (∀ i : Z, 0 ≤ i → i + 1 < n →
     ∃ pre post t,
       phase_schedule_ s !! Z.to_nat i = Some pre ∧
       phase_schedule_ s !! Z.to_nat (i + 1) = Some post ∧
       time_schedule_ s !! Z.to_nat (i + 1) = Some t ∧
       getSwitchEventFromIdx i s = Some (mkSwitchEvent pre post t, s)) ∧
  (∃ b, last (time_schedule_ s) = Some b ∧
        getStartTimeFromIdx n s = Some (b, s)) ∧
  (∃ a, time_schedule_ s !! 0%nat = Some a ∧
        getEndTimeFromIdx SIZE_MAX s = Some (a, s)) ∧
  (∀ i : Z, n < i → getStartTimeFromIdx i s = None) ∧
  (∀ i : Z, n ≤ i < SIZE_MAX → getEndTimeFromIdx i s = None) ∧
  (∀ i : Z, n ≤ i → getPhasePtrFromIdx i s = None) ∧
  (∀ i : Z, 0 ≤ i ≤ SIZE_MAX → n ≤ i + 1 → getSwitchEventFromIdx i s = None).
Proof.
  intros Hlen Hrep Hn. apply getNumPhases_value in Hn as ->.
  unfold representable in Hrep.
  assert (vec_size (time_schedule_ s) = vec_size (phase_schedule_ s) + 1) as Hsize
    by (unfold consistent in Hlen; unfold vec_size; lia).
  assert (0 ≤ vec_size (phase_schedule_ s)) as Hnonneg by (unfold vec_size; lia).
  assert (∀ {A} (v : list A) (i : Z), 0 ≤ i < vec_size v →
            ∃ x, v !! Z.to_nat i = Some x ∧ vec_at v i = Some x) as Hread.
  { intros A v i Hi. destruct (vec_at_in_bounds v i Hi) as [x Hx]. exists x.
    split; [|done]. unfold vec_at in Hx. by case_decide. }
  repeat split.
  - intros i Hi.
    destruct (Hread _ (time_schedule_ s) i) as (a & Ha & Ha'); [lia|].
    destruct (Hread _ (time_schedule_ s) (i + 1)) as (b & Hb & Hb'); [lia|].
    destruct (Hread _ (phase_schedule_ s) i) as (p & Hp & Hp'); [lia|].
    exists a, b, p. do 3 (split; [done|]).
    rewrite getStartTimeFromIdx_run, getEndTimeFromIdx_run, getPhasePtrFromIdx_run,
      size_t_wrap_small by lia.
    by rewrite Ha', Hb', Hp'.
  - intros i Hi Hi'.
    destruct (Hread _ (phase_schedule_ s) i) as (pre & Hpre & Hpre'); [lia|].
    destruct (Hread _ (phase_schedule_ s) (i + 1)) as (post & Hpost & Hpost'); [lia|].
    destruct (Hread _ (time_schedule_ s) (i + 1)) as (t & Ht & Ht'); [lia|].
    exists pre, post, t. do 3 (split; [done|]).
    rewrite getSwitchEventFromIdx_run, size_t_wrap_small by lia.
    by rewrite Hpre', Hpost', Ht'.
  - destruct (consistent_back s Hlen) as [b Hb]. exists b. split; [done|].
    apply getStartTimeFromIdx_at.
    destruct (vec_back_at (time_schedule_ s)) as [Hat|Hnil].
    + rewrite <-Hb, Hat. f_equal. lia.
    + rewrite Hnil in Hb. done.
  - destruct (Hread _ (time_schedule_ s) 0) as (a & Ha & Ha'); [lia|].
    exists a. split; [done|].
    apply getEndTimeFromIdx_at. by rewrite size_t_wrap_max.
  - intros i Hi. rewrite getStartTimeFromIdx_run, vec_at_out_of_bounds; [done|lia].
  - intros i Hi.
    rewrite getEndTimeFromIdx_run, size_t_wrap_small, vec_at_out_of_bounds; [done|lia..].
  - intros i Hi. rewrite getPhasePtrFromIdx_run, vec_at_out_of_bounds; [done|lia].
  - intros i Hi Hi'. rewrite getSwitchEventFromIdx_run.
    destruct (decide (vec_size (phase_schedule_ s) ≤ i)) as [Hout|Hin].
    + by rewrite (vec_at_out_of_bounds _ i).
    + rewrite size_t_wrap_small by lia.
      rewrite (vec_at_out_of_bounds _ (i + 1)) by lia.
      by destruct (vec_at _ i).
Qed.

(** C9 (frame).  Each of the nine queries hands the sequence back as it
    received it; the three that take no index always return.  [addPhase]
    returns on every sequence with one boundary time more than phases and
    keeps every boundary time and every phase handle stored before the call
    in place, and so does every run of calls; in particular the start time
    given to the constructor stays the first boundary time whatever is called
    afterwards. *)
Theorem C9_queries_frame_and_entries_kept :
  (pure getNumPhases ∧
   pure getNumSwitches ∧
   (∀ i, pure (getStartTimeFromIdx i)) ∧
   (∀ i, pure (getEndTimeFromIdx i)) ∧
   (∀ i, pure (getPhasePtrFromIdx i)) ∧
   (∀ t, pure (getPhasePtrFromTime t)) ∧
   (∀ i, pure (getSwitchEventFromIdx i)) ∧
   (∀ t, pure (getSwitchEventFromTime t)) ∧
   (∀ t, pure (getIdxFromTime t))) ∧
  (total getNumPhases ∧ total getNumSwitches ∧ ∀ t, total (getIdxFromTime t)) ∧
  (∀ p d s, consistent s →
     ∃ s', addPhase p d s = Some ((), s') ∧
       ∀ i : Z,
         (∀ a, getStartTimeFromIdx i s = Some (a, s) →
               getStartTimeFromIdx i s' = Some (a, s')) ∧
         (∀ q, getPhasePtrFromIdx i s = Some (q, s) →
               getPhasePtrFromIdx i s' = Some (q, s'))) ∧
  (∀ (cs : list (call PhasePtr_t Time)) s s', exec_all cs s = Some s' →
     ∀ i : Z,
       (∀ a, getStartTimeFromIdx i s = Some (a, s) →
             getStartTimeFromIdx i s' = Some (a, s')) ∧
       (∀ q, getPhasePtrFromIdx i s = Some (q, s) →
             getPhasePtrFromIdx i s' = Some (q, s'))) ∧
  (∀ (cs : list (call PhasePtr_t Time)) (start : Time) s',
     exec_all cs (PhaseSequence_new start) = Some s' →
     getStartTimeFromIdx 0 s' = Some (start, s')).
Proof.
  split; [|split; [|split; [|split]]].
  - repeat split; auto with frame.
  - repeat split; intros; by eexists.
  - intros p d s Hs.
    destruct (addPhase_defined p d s Hs) as [[[] s'] Hadd].
    exists s'. split; [done|]. by eapply entries_kept, addPhase_prefix.
  - intros cs s s' Hcs. by eapply entries_kept, exec_all_prefix.
  - intros cs start s' Hcs.
    by apply (entries_kept _ _ (exec_all_prefix _ _ _ Hcs) 0).
Qed.
End Claims_access.

(** C8, as stated, fails.  A call that is rejected, in whatever way, returns
    no value; yet on the three-phase sequence, whose valid indices are 0, 1
    and 2, [getStartTimeFromIdx(3)] returns the boundary time 6 and
    [getEndTimeFromIdx(SIZE_MAX)] returns the boundary time 0. *)
Lemma C8_counterexample :
  ¬ (∀ (s : PhaseSequence nat Z) (n i : Z),
       getNumPhases s = Some (n, s) → 0 ≤ i ≤ SIZE_MAX → ¬ (0 ≤ i < n) →
       ¬ is_Some (getStartTimeFromIdx i s) ∧ ¬ is_Some (getEndTimeFromIdx i s) ∧
       ¬ is_Some (getPhasePtrFromIdx i s) ∧ ¬ is_Some (getSwitchEventFromIdx i s)) ∧
  getStartTimeFromIdx 3 three_phases = Some (6, three_phases) ∧
  getEndTimeFromIdx SIZE_MAX three_phases = Some (0, three_phases).
Proof.
  split; [|done].
  intros Hclaim. destruct (Hclaim three_phases 3 3) as [Hstart _].
  - reflexivity.
  - by vm_compute.
  - lia.
  - apply Hstart. by eexists.
Qed.

Lemma C8_witness :
  ∃ a b p,
    time_schedule_ three_phases !! Z.to_nat 2 = Some a ∧
    time_schedule_ three_phases !! Z.to_nat (2 + 1) = Some b ∧
    phase_schedule_ three_phases !! Z.to_nat 2 = Some p ∧
    getStartTimeFromIdx 2 three_phases = Some (a, three_phases) ∧
    getEndTimeFromIdx 2 three_phases = Some (b, three_phases) ∧
    getPhasePtrFromIdx 2 three_phases = Some (p, three_phases).
Proof.
  apply (proj1 (C8_accessors_are_unchecked three_phases 3
                  ltac:(reflexivity) ltac:(by vm_compute) ltac:(reflexivity)));
    lia.
Defined.

Lemma C9_witness :
  getStartTimeFromIdx 0 three_phases = Some (0, three_phases).
Proof.
  apply (proj2 (proj2 (proj2 (proj2 C9_queries_frame_and_entries_kept)))
           [call_addPhase 10%nat 2; call_getIdxFromTime 1; call_addPhase 11%nat 3;
            call_getNumSwitches; call_addPhase 12%nat 1] 0 three_phases).
  reflexivity.
Defined.

(** * Further properties of the search and of the time-based queries *)

Section Search.
Context {PhasePtr_t : Type} `{TimeLaws Time}.
Implicit Types (s : PhaseSequence PhasePtr_t Time) (p : PhasePtr_t) (d t : Time).

Lemma vec_at_Some {A} (v : list A) (n : Z) (a : A) :
  vec_at v n = Some a → 0 ≤ n ∧ v !! Z.to_nat n = Some a.
Proof. unfold vec_at. by case_decide. Qed.

Lemma lower_bound_is_partition (v : list Time) (val : Time) :
  non_decreasing v → partition_point v val (lower_bound v val).
Proof.
  intros Hv. rewrite lower_bound_count_below by done. by apply count_below_partition.
Qed.

Lemma getIdxFromTime_value t s (i : Z) s' :
  getIdxFromTime t s = Some (i, s') → i = Z.of_nat (lower_bound (time_schedule_ s) t).
Proof. rewrite getIdxFromTime_run. congruence. Qed.

(** X1 (what the search finds).  On a sequence built with non-negative
    durations and without overflow [getIdxFromTime(t)] returns the index of
    the first boundary time that is not below [t]: every boundary time
    before that index is below [t], none from that index on is, and the
    index is at most the number of boundary times. *)
Theorem X1_getIdxFromTime_first_boundary_not_below s t :
  built_without_overflow s →
  ∃ i : Z,
    getIdxFromTime t s = Some (i, s) ∧
    0 ≤ i ≤ vec_size (time_schedule_ s) ∧
    ∀ (j : Z) (a : Time), vec_at (time_schedule_ s) j = Some a →
      (j < i → t_lt a t = true) ∧ (i ≤ j → t_lt a t = false).
Proof.
  intros Hs. destruct (built_without_overflow_invariant s Hs) as [_ Hsorted].
  destruct (lower_bound_is_partition _ t Hsorted) as (Hk & Hlow & Hhigh).
  eexists. split; [apply getIdxFromTime_run|]. split; [unfold vec_size; lia|].
  intros j a Ha. apply vec_at_Some in Ha as [Hj Ha]. split; intros Hji.
  - apply (Hlow _ _ Ha). lia.
  - apply (Hhigh _ _ Ha). lia.
Qed.

(** A time inside a phase: for a time [t] above the start time of phase [i]
    and not above its end time, the search returns [i + 1], and the two
    time-based queries answer for that index. *)
Lemma time_inside_phase_resolves_to_next_index s (i : Z) (a b t : Time) :
  built_without_overflow s → representable s →
  getStartTimeFromIdx i s = Some (a, s) →
  getEndTimeFromIdx i s = Some (b, s) →
  t_lt a t = true → t_le t b = true →
  getIdxFromTime t s = Some (i + 1, s) ∧
  getPhasePtrFromTime t s = getPhasePtrFromIdx (i + 1) s ∧
  getSwitchEventFromTime t s = getSwitchEventFromIdx (i + 1) s.
Proof.
  intros Hs Hrep Ha Hb Hat Htb.
  pose proof (getIdxFromTime_inside_phase s i a b t
                (built_without_overflow_invariant s Hs) Hrep Ha Hb Hat Htb) as Hidx.
  split; [done|].
  apply getIdxFromTime_value in Hidx.
  by rewrite getPhasePtrFromTime_run, getSwitchEventFromTime_run, <-Hidx.
Qed.

(** X3 (times outside the horizon).  On a sequence built with non-negative
    durations and without overflow, for a time not above the start time [getIdxFromTime] is 0, and
    for a time above the last boundary time it is [getNumPhases() + 1], the
    number of boundary times. *)
Theorem X3_getIdxFromTime_outside_horizon s (n : Z) (a0 b t : Time) :
  built_without_overflow s → getNumPhases s = Some (n, s) →
  getStartTimeFromIdx 0 s = Some (a0, s) →
  vec_back (time_schedule_ s) = Some b →
  (t_le t a0 = true → getIdxFromTime t s = Some (0, s)) ∧
  (t_lt b t = true → getIdxFromTime t s = Some (n + 1, s)).
Proof.
  intros Hs Hn Ha0 Hb. destruct (built_without_overflow_invariant s Hs) as [Hlen Hsorted].
  apply getNumPhases_value in Hn as ->.
  apply getStartTimeFromIdx_lookup in Ha0 as [_ Ha0]. simpl in Ha0.
  unfold vec_back in Hb. rewrite last_lookup in Hb.
  unfold consistent in Hlen.
  split; intros Ht; rewrite getIdxFromTime_run; do 2 f_equal.
  - rewrite (lower_bound_partition _ _ 0%nat); [done|].
    repeat split; [lia|intros; lia|]. intros j x Hx _.
    assert (t_le t x = true) as Htx.
    { eapply t_le_trans; [exact Ht|].
      apply (non_decreasing_lookup (time_schedule_ s) 0 j); [done|lia|done..]. }
    unfold t_le in Htx. by destruct (t_lt x t).
  - rewrite (lower_bound_partition _ _ (length (time_schedule_ s)));
      [unfold vec_size; lia|].
    repeat split; [lia| |].
    + intros j x Hx Hj. eapply t_le_lt_trans; [|exact Ht].
      apply (non_decreasing_lookup (time_schedule_ s) j
               (pred (length (time_schedule_ s)))); [done|lia|done..].
    + intros j x Hx Hj. apply lookup_lt_Some in Hx. lia.
Qed.

(** X4 (the search at a boundary time).  On a sequence built with
    non-negative durations and without overflow, searching for the time
    stored at boundary [k]
    returns the first boundary whose time is neither below nor above it: an
    index that is at most [k], with every boundary before it below the
    time. *)
Theorem X4_getIdxFromTime_at_stored_time s (k : Z) t :
  built_without_overflow s → vec_at (time_schedule_ s) k = Some t →
  ∃ (i : Z) (t' : Time),
    getIdxFromTime t s = Some (i, s) ∧ 0 ≤ i ≤ k ∧
    vec_at (time_schedule_ s) i = Some t' ∧
    t_lt t' t = false ∧ t_lt t t' = false ∧
    ∀ (j : Z) (a : Time), vec_at (time_schedule_ s) j = Some a → j < i →
      t_lt a t = true.
Proof.
  intros Hs Hk. destruct (built_without_overflow_invariant s Hs) as [_ Hsorted].
  destruct (lower_bound_is_partition _ t Hsorted) as (Hlen & Hlow & Hhigh).
  apply vec_at_Some in Hk as [Hk0 Hk].
  set (i := lower_bound (time_schedule_ s) t) in *.
  assert (i ≤ Z.to_nat k)%nat as Hik.
  { destruct (decide (i ≤ Z.to_nat k)%nat) as [|Hgt]; [done|].
    pose proof (t_lt_irrefl t) as Hirr.
    rewrite (Hlow _ _ Hk) in Hirr; [done|lia]. }
  destruct (lookup_lt_is_Some_2 (time_schedule_ s) i) as [t' Ht'].
  { apply lookup_lt_Some in Hk. lia. }
  exists (Z.of_nat i), t'. split; [apply getIdxFromTime_run|].
  split; [lia|]. rewrite vec_at_of_nat. split; [done|].
  split; [by apply (Hhigh _ _ Ht')|]. split.
  - pose proof (non_decreasing_lookup _ _ _ _ _ Hsorted Hik Ht' Hk) as Hle.
    unfold t_le in Hle. by destruct (t_lt t t').
  - intros j a Ha Hj. apply vec_at_Some in Ha as [Hj0 Ha].
    apply (Hlow _ _ Ha). lia.
Qed.
End Search.

Lemma X1_witness :
  ∃ i : Z,
    getIdxFromTime 4 three_phases = Some (i, three_phases) ∧
    0 ≤ i ≤ vec_size (time_schedule_ three_phases) ∧
    ∀ (j : Z) (a : Z), vec_at (time_schedule_ three_phases) j = Some a →
      (j < i → t_lt a 4 = true) ∧ (i ≤ j → t_lt a 4 = false).
Proof. apply (X1_getIdxFromTime_first_boundary_not_below three_phases 4 three_phases_in_order). Defined.

Lemma X3_witness : getIdxFromTime 9 three_phases = Some (3 + 1, three_phases).
Proof.
  apply (proj2 (X3_getIdxFromTime_outside_horizon three_phases 3 0 6 9
                  three_phases_in_order ltac:(reflexivity) ltac:(reflexivity)
                  ltac:(reflexivity))).
  reflexivity.
Defined.

Lemma X4_witness :
  ∃ (i : Z) (t' : Z),
    getIdxFromTime 2 zero_durations = Some (i, zero_durations) ∧ 0 ≤ i ≤ 3 ∧
    vec_at (time_schedule_ zero_durations) i = Some t' ∧
    t_lt t' 2 = false ∧ t_lt 2 t' = false ∧
    ∀ (j : Z) (a : Z), vec_at (time_schedule_ zero_durations) j = Some a → j < i →
      t_lt a 2 = true.
Proof.
  apply (X4_getIdxFromTime_at_stored_time zero_durations 3 2 zero_durations_in_order).
  reflexivity.
Defined.

Section TimeQueries.
Context {PhasePtr_t : Type} `{TimeLaws Time}.
Implicit Types (s : PhaseSequence PhasePtr_t Time) (p : PhasePtr_t) (d t : Time).

Lemma getPhasePtrFromTime_lookup t s (q : PhasePtr_t) s' :
  getPhasePtrFromTime t s = Some (q, s') ↔
  phase_schedule_ s !! lower_bound (time_schedule_ s) t = Some q ∧ s' = s.
Proof.
  rewrite getPhasePtrFromTime_run, getPhasePtrFromIdx_run, vec_at_of_nat.
  destruct (_ !! _); simpl; split; try done.
  - by intros [= -> ->].
  - by intros [[= ->] ->].
  - by intros [? _].
Qed.

Lemma getSwitchEventFromTime_lookup t s (ev : SwitchEvent PhasePtr_t Time) s' :
  representable s → consistent s →
  getSwitchEventFromTime t s = Some (ev, s') ↔
  phase_schedule_ s !! lower_bound (time_schedule_ s) t = Some (pre_phase ev) ∧
  phase_schedule_ s !! S (lower_bound (time_schedule_ s) t) = Some (post_phase ev) ∧
  time_schedule_ s !! S (lower_bound (time_schedule_ s) t) = Some (switch_time ev) ∧
  s' = s.
Proof.
  intros Hrep Hlen. unfold representable, vec_size in Hrep.
  pose proof (lower_bound_le_length (time_schedule_ s) t) as Hk.
  rewrite getSwitchEventFromTime_run, getSwitchEventFromIdx_run, vec_at_of_nat.
  set (k := lower_bound (time_schedule_ s) t) in *.
  destruct (decide (k = length (time_schedule_ s))) as [Hout|Hin].
  - unfold consistent in Hlen.
    rewrite (lookup_ge_None_2 (phase_schedule_ s) k) by lia.
    split; [done|]. by intros [? _].
  - rewrite size_t_wrap_small by lia.
    replace (Z.of_nat k + 1) with (Z.of_nat (S k)) by lia.
    rewrite !vec_at_of_nat. destruct ev as [pre post time]. simpl.
    destruct (phase_schedule_ s !! k); [|split; [done|by intros [? _]]].
    destruct (phase_schedule_ s !! S k); [|split; [done|by intros (_ & ? & _)]].
    destruct (time_schedule_ s !! S k); [|split; [done|by intros (_ & _ & ? & _)]].
    split.
    + by intros [= -> -> -> ->].
    + by intros ([= ->] & [= ->] & [= ->] & ->).
Qed.

(** X5 (when [getPhasePtrFromTime] answers).  On a sequence built with
    non-negative durations, without overflow, and with at least one phase,
    [getPhasePtrFromTime(t)] returns a handle exactly for the times [t] that
    are not above the start time of the last phase (the times before the
    start of the sequence included); on a sequence without phases it returns
    nothing for any time. *)
Theorem X5_getPhasePtrFromTime_defined_up_to_last_start :
  (∀ s (n : Z) (c t : Time),
     built_without_overflow s → getNumPhases s = Some (n, s) → 0 < n →
     getStartTimeFromIdx (n - 1) s = Some (c, s) →
     (is_Some (getPhasePtrFromTime t s) ↔ t_le t c = true)) ∧
  (∀ start t : Time,
     getPhasePtrFromTime t (PhaseSequence_new (PhasePtr_t:=PhasePtr_t) start) = None).
Proof.
  split.
  - intros s n c t Hs Hn Hpos Hc. destruct (built_without_overflow_invariant s Hs) as [_ Hsorted].
    apply getNumPhases_value in Hn as ->.
    apply getStartTimeFromIdx_lookup in Hc as [_ Hc].
    destruct (lower_bound_is_partition _ t Hsorted) as (_ & Hlow & Hhigh).
    unfold vec_size in *. unfold t_le. split.
    + intros [[q s'] Hq]. apply getPhasePtrFromTime_lookup in Hq as [Hq _].
      apply lookup_lt_Some in Hq. rewrite (Hhigh _ _ Hc); [done|lia].
    + intros Ht.
      destruct (lookup_lt_is_Some_2 (phase_schedule_ s)
                  (lower_bound (time_schedule_ s) t)) as [q Hq].
      { destruct (decide (lower_bound (time_schedule_ s) t
                          < length (phase_schedule_ s))%nat) as [|Hge]; [done|].
        rewrite (Hlow _ _ Hc) in Ht; [done|lia]. }
      exists (q, s). by apply getPhasePtrFromTime_lookup.
  - intros start t.
    destruct (getPhasePtrFromTime t (PhaseSequence_new start)) as [[q s']|] eqn:Hq; [|done].
    apply getPhasePtrFromTime_lookup in Hq as [Hq _]. done.
Qed.

(** X6 (the event [getSwitchEventFromTime] returns).  On a sequence built
    with non-negative durations and without overflow, when
    [getSwitchEventFromTime(t)] returns an
    event, it is the event of the index [getIdxFromTime(t)]: its pre-phase is
    the handle [getPhasePtrFromTime(t)] returns, its post-phase is the handle
    of the next index, and its switch time is not below [t]. *)
Theorem X6_getSwitchEventFromTime_is_next_event s t
    (ev : SwitchEvent PhasePtr_t Time) :
  built_without_overflow s → representable s →
  getSwitchEventFromTime t s = Some (ev, s) →
  ∃ i : Z,
    getIdxFromTime t s = Some (i, s) ∧
    getSwitchEventFromIdx i s = Some (ev, s) ∧
    getPhasePtrFromTime t s = Some (pre_phase ev, s) ∧
    getPhasePtrFromIdx (i + 1) s = Some (post_phase ev, s) ∧
    t_le t (switch_time ev) = true.
Proof.
  intros Hs Hrep Hev. destruct (built_without_overflow_invariant s Hs) as [Hlen Hsorted].
  exists (Z.of_nat (lower_bound (time_schedule_ s) t)).
  split; [apply getIdxFromTime_run|]. split; [by rewrite <-getSwitchEventFromTime_run|].
  apply getSwitchEventFromTime_lookup in Hev as (Hpre & Hpost & Htime & _); [|done..].
  destruct (lower_bound_is_partition _ t Hsorted) as (_ & _ & Hhigh).
  split; [by apply getPhasePtrFromTime_lookup|]. split.
  - apply getPhasePtrFromIdx_at.
    replace (Z.of_nat (lower_bound (time_schedule_ s) t) + 1)
      with (Z.of_nat (S (lower_bound (time_schedule_ s) t))) by lia.
    by rewrite vec_at_of_nat.
  - unfold t_le. apply negb_true_iff. by apply (Hhigh _ _ Htime); lia.
Qed.

(** X7 (when [getSwitchEventFromTime] answers).  On a sequence built with
    non-negative durations, without overflow, and with at least two phases,
    [getSwitchEventFromTime(t)] returns an event exactly for the times [t]
    that are not above the start time of the last phase but one; on a
    sequence with fewer than two phases it returns nothing for any time. *)
Theorem X7_getSwitchEventFromTime_defined_up_to_last_switch s (n : Z) t :
  built_without_overflow s → representable s → getNumPhases s = Some (n, s) →
  (∀ c : Time, 1 < n → getStartTimeFromIdx (n - 2) s = Some (c, s) →
     (is_Some (getSwitchEventFromTime t s) ↔ t_le t c = true)) ∧
  (n ≤ 1 → getSwitchEventFromTime t s = None).
Proof.
  intros Hs Hrep Hn. destruct (built_without_overflow_invariant s Hs) as [Hlen Hsorted].
  apply getNumPhases_value in Hn as ->.
  destruct (lower_bound_is_partition _ t Hsorted) as (_ & Hlow & Hhigh).
  unfold vec_size in *. split.
  - intros c Hpos Hc. apply getStartTimeFromIdx_lookup in Hc as [_ Hc].
    unfold t_le. split.
    + intros [[ev s'] Hev].
      apply getSwitchEventFromTime_lookup in Hev as (_ & Hpost & _); [|done..].
      apply lookup_lt_Some in Hpost. rewrite (Hhigh _ _ Hc); [done|lia].
    + intros Ht.
      assert (S (lower_bound (time_schedule_ s) t) < length (phase_schedule_ s))%nat
        as Hk.
      { destruct (decide (S (lower_bound (time_schedule_ s) t)
                          < length (phase_schedule_ s))%nat) as [|Hge]; [done|].
        rewrite (Hlow _ _ Hc) in Ht; [done|lia]. }
      unfold consistent in Hlen.
      destruct (lookup_lt_is_Some_2 (phase_schedule_ s)
                  (lower_bound (time_schedule_ s) t)) as [pre Hpre]; [lia|].
      destruct (lookup_lt_is_Some_2 (phase_schedule_ s)
                  (S (lower_bound (time_schedule_ s) t))) as [post Hpost]; [lia|].
      destruct (lookup_lt_is_Some_2 (time_schedule_ s)
                  (S (lower_bound (time_schedule_ s) t))) as [time Htime]; [lia|].
      exists (mkSwitchEvent pre post time, s).
      by apply getSwitchEventFromTime_lookup.
  - intros Hfew.
    destruct (getSwitchEventFromTime t s) as [[ev s']|] eqn:Hev; [|done].
    apply getSwitchEventFromTime_lookup in Hev as (_ & Hpost & _); [|done..].
    apply lookup_lt_Some in Hpost. lia.
Qed.
End TimeQueries.

Lemma X5_witness : is_Some (getPhasePtrFromTime 3 three_phases) ↔ t_le 3 5 = true.
Proof.
  apply (proj1 X5_getPhasePtrFromTime_defined_up_to_last_start three_phases 3 5 3
           three_phases_in_order); [reflexivity|lia|reflexivity].
Defined.

Lemma X6_witness :
  ∃ i : Z,
    getIdxFromTime 1 three_phases = Some (i, three_phases) ∧
    getSwitchEventFromIdx i three_phases
      = Some (mkSwitchEvent 11%nat 12%nat 5, three_phases) ∧
    getPhasePtrFromTime 1 three_phases = Some (11%nat, three_phases) ∧
    getPhasePtrFromIdx (i + 1) three_phases = Some (12%nat, three_phases) ∧
    t_le 1 5 = true.
Proof.
  apply (X6_getSwitchEventFromTime_is_next_event three_phases 1
           (mkSwitchEvent 11%nat 12%nat 5) three_phases_in_order);
    [by vm_compute|reflexivity].
Defined.

Lemma X7_witness :
  is_Some (getSwitchEventFromTime 2 three_phases) ↔ t_le 2 2 = true.
Proof.
  apply (proj1 (X7_getSwitchEventFromTime_defined_up_to_last_switch three_phases 3 2
                  three_phases_in_order ltac:(by vm_compute) ltac:(reflexivity)) 2);
    [lia|reflexivity].
Defined.

Section Appending.
Context {PhasePtr_t : Type} `{TimeLaws Time}.
Implicit Types (s : PhaseSequence PhasePtr_t Time) (p : PhasePtr_t) (d t : Time).

(** The search is unchanged by an entry appended to a non-decreasing vector,
    for a time that is not above the entry that was last before. *)
Lemma lower_bound_snoc (v : list Time) (b x t : Time) :
  non_decreasing v → last v = Some b → t_le b x = true → t_le t b = true →
  lower_bound (v ++ [x]) t = lower_bound v t.
Proof.
  intros Hv Hb Hbx Htb.
  destruct (lower_bound_is_partition v t Hv) as (Hk & Hlow & Hhigh).
  rewrite last_lookup in Hb.
  assert (lower_bound v t < length v)%nat as Hlt.
  { destruct (decide (lower_bound v t < length v)%nat) as [|Hge]; [done|].
    pose proof (lookup_lt_Some _ _ _ Hb) as Hlen.
    unfold t_le in Htb. rewrite (Hlow _ _ Hb) in Htb; [done|lia]. }
  apply lower_bound_partition. repeat split.
  - rewrite length_app. simpl. lia.
  - intros j a Ha Hj. rewrite lookup_app_l in Ha by lia. by apply (Hlow j).
  - intros j a Ha Hj. destruct (decide (j < length v)%nat) as [Hin|Hout].
    + rewrite lookup_app_l in Ha by done. by apply (Hhigh j).
    + rewrite lookup_app_r in Ha by lia.
      destruct (j - length v)%nat; simpl in Ha; [|done]. injection Ha as <-.
      pose proof (t_le_trans _ _ _ Htb Hbx) as Htx.
      unfold t_le in Htx. by destruct (t_lt x t).
Qed.

(** X8 (appending does not change earlier answers).  On a sequence built
    with non-negative durations and without overflow, appending one more
    phase with a non-negative duration, the new boundary time not below the
    last one, leaves [getIdxFromTime(t)] as it was for every time [t] that is
    not above the previous last boundary time, and every handle or switch
    event that a time-based query returned before the call is returned for
    the same time after it. *)
Theorem X8_addPhase_keeps_time_answers s s' p d (b t : Time) :
  built_without_overflow s → representable s' → t_le t_zero d = true →
  vec_back (time_schedule_ s) = Some b → t_le b (t_add b d) = true →
  addPhase p d s = Some ((), s') →
  (t_le t b = true →
     ∀ i : Z, getIdxFromTime t s = Some (i, s) → getIdxFromTime t s' = Some (i, s')) ∧
  (∀ q, getPhasePtrFromTime t s = Some (q, s) →
        getPhasePtrFromTime t s' = Some (q, s')) ∧
  (∀ ev, getSwitchEventFromTime t s = Some (ev, s) →
         getSwitchEventFromTime t s' = Some (ev, s')).
Proof.
  intros Hs Hrep' _ Hb Hd Hadd. destruct (built_without_overflow_invariant s Hs) as [Hlen Hsorted].
  pose proof (consistent_addPhase _ _ _ _ Hlen Hadd) as Hlen'.
  assert (representable s) as Hrep.
  { rewrite addPhase_run, Hb in Hadd. injection Hadd as <-.
    unfold representable, vec_size, push_back in *. simpl in Hrep'.
    rewrite length_app in Hrep'. lia. }
  assert (∀ k x : _, time_schedule_ s !! k = Some x → t_lt x t = false →
            lower_bound (time_schedule_ s') t = lower_bound (time_schedule_ s) t)
    as Hsame.
  { intros k x Hx Hxt.
    rewrite addPhase_run, Hb in Hadd. injection Hadd as <-. simpl.
    unfold vec_back in Hb. unfold push_back.
    apply (lower_bound_snoc (time_schedule_ s) b); [done..|].
    rewrite last_lookup in Hb.
    eapply t_le_trans; [unfold t_le; by rewrite Hxt|].
    apply (non_decreasing_lookup (time_schedule_ s) k
             (pred (length (time_schedule_ s)))); [done| |done..].
    apply lookup_lt_Some in Hx. lia. }
  destruct (addPhase_prefix _ _ _ _ Hadd) as [Hps Hts].
  destruct (lower_bound_is_partition _ t Hsorted) as (Hk & _ & Hhigh).
  split; [|split].
  - intros Ht i Hi. apply getIdxFromTime_value in Hi as ->.
    rewrite getIdxFromTime_run. do 3 f_equal.
    unfold vec_back in Hb. rewrite last_lookup in Hb.
    apply (Hsame _ _ Hb). unfold t_le in Ht. by destruct (t_lt b t).
  - intros q Hq. apply getPhasePtrFromTime_lookup in Hq as [Hq _].
    apply getPhasePtrFromTime_lookup. split; [|done].
    destruct (lookup_lt_is_Some_2 (time_schedule_ s)
                (lower_bound (time_schedule_ s) t)) as [x Hx].
    { apply lookup_lt_Some in Hq. unfold consistent in Hlen. lia. }
    rewrite (Hsame _ _ Hx) by (by apply (Hhigh _ _ Hx)).
    by eapply prefix_lookup_Some.
  - intros ev Hev.
    apply getSwitchEventFromTime_lookup in Hev as (Hpre & Hpost & Htime & _); [|done..].
    apply getSwitchEventFromTime_lookup; [done..|].
    rewrite (Hsame _ _ Htime) by (apply (Hhigh _ _ Htime); lia).
    repeat split; by eapply prefix_lookup_Some.
Qed.

(** X9 (boundary times are ordered).  On a sequence built with non-negative
    durations and without overflow no phase ends before it starts, and of two phases the one with
    the smaller index starts no later than the other. *)
Theorem X9_phase_times_ordered s :
  built_without_overflow s → representable s →
  (∀ (i : Z) (a b : Time),
     getStartTimeFromIdx i s = Some (a, s) → getEndTimeFromIdx i s = Some (b, s) →
     t_le a b = true) ∧
  (∀ (i j : Z) (a b : Time), i ≤ j →
     getStartTimeFromIdx i s = Some (a, s) → getStartTimeFromIdx j s = Some (b, s) →
     t_le a b = true).
Proof.
  intros Hs Hrep. destruct (built_without_overflow_invariant s Hs) as [_ Hsorted].
  unfold representable, vec_size in Hrep. split.
  - intros i a b Ha Hb. apply getStartTimeFromIdx_lookup in Ha as [Hi Ha].
    pose proof (lookup_lt_Some _ _ _ Ha) as Hlt.
    rewrite getEndTimeFromIdx_run, size_t_wrap_small in Hb by lia.
    destruct (vec_at (time_schedule_ s) (i + 1)) as [b'|] eqn:Hb'; simpl in Hb; [|done].
    injection Hb as ->. apply vec_at_Some in Hb' as [_ Hb'].
    apply (non_decreasing_lookup (time_schedule_ s) (Z.to_nat i) (Z.to_nat (i + 1))
             _ _ Hsorted); [lia|done..].
  - intros i j a b Hij Ha Hb.
    apply getStartTimeFromIdx_lookup in Ha as [Hi Ha].
    apply getStartTimeFromIdx_lookup in Hb as [Hj Hb].
    apply (non_decreasing_lookup (time_schedule_ s) (Z.to_nat i) (Z.to_nat j)
             _ _ Hsorted); [lia|done..].
Qed.
End Appending.

Lemma X8_witness :
  getPhasePtrFromTime 1 (mkPhaseSequence [10%nat; 11%nat; 12%nat] [0; 2; 5; 6])
  = Some (11%nat, mkPhaseSequence [10%nat; 11%nat; 12%nat] [0; 2; 5; 6]).
Proof.
  apply (proj1 (proj2 (X8_addPhase_keeps_time_answers
                         (mkPhaseSequence [10%nat; 11%nat] [0; 2; 5])
                         (mkPhaseSequence [10%nat; 11%nat; 12%nat] [0; 2; 5; 6])
                         12%nat 1 5 1
                         ltac:(apply (built_without_overflow_addPhase
                                        (mkPhaseSequence [10%nat] [0; 2]) 11%nat 3 2);
                                 [|reflexivity..];
                               apply (built_without_overflow_addPhase
                                        (PhaseSequence_new 0) 10%nat 2 0);
                                 [|reflexivity..];
                               apply built_without_overflow_new)
                         ltac:(by vm_compute) ltac:(reflexivity) ltac:(reflexivity)
                         ltac:(reflexivity) ltac:(reflexivity)))).
  reflexivity.
Defined.

Lemma X9_witness : t_le 0 5 = true.
Proof.
  apply (proj2 (X9_phase_times_ordered three_phases three_phases_in_order
                  ltac:(by vm_compute)) 0 2 0 5); [lia|reflexivity..].
Defined.

Section Building.
Context {PhasePtr_t : Type} `{TimeOps Time}.
Implicit Types (s : PhaseSequence PhasePtr_t Time) (p : PhasePtr_t) (d t : Time).

Lemma boundary_times_length (b : Time) (ds : list Time) :
  length (boundary_times b ds) = S (length ds).
Proof. revert b. induction ds as [|d ds IH]; intros b; simpl; [done|]. by rewrite IH. Qed.

Lemma boundary_times_head (b : Time) (ds : list Time) :
  boundary_times b ds = b :: tail (boundary_times b ds).
Proof. by destruct ds. Qed.

Lemma boundary_times_step (b : Time) (ds : list Time) (i : nat) (a d : Time) :
  boundary_times b ds !! i = Some a → ds !! i = Some d →
  boundary_times b ds !! S i = Some (t_add a d).
Proof.
  revert b i. induction ds as [|d0 ds IH]; intros b i Ha Hd; [done|].
  destruct i as [|i]; simpl in *.
  - injection Ha as <-. injection Hd as <-. by rewrite boundary_times_head.
  - by apply IH.
Qed.

(** Appending the phases of a list: the handles go to the end of the phase
    schedule, and the boundary times continue from the last one. *)
Lemma exec_all_append_calls (l : list (PhasePtr_t * Time)) s (b : Time) :
  vec_back (time_schedule_ s) = Some b →
  exec_all (append_calls l) s =
  Some (mkPhaseSequence (phase_schedule_ s ++ l.*1)
                        (time_schedule_ s ++ tail (boundary_times b l.*2))).
Proof.
  revert s b. induction l as [|[p d] l IH]; intros s b Hb; simpl.
  - rewrite !app_nil_r. by destruct s.
  - unfold state_after. rewrite addPhase_run, Hb. simpl.
    rewrite (IH _ (t_add b d)); simpl.
    + unfold push_back. rewrite <-!app_assoc. simpl.
      by rewrite <-boundary_times_head.
    + apply last_snoc.
Qed.

(** X10 (a sequence appended from a list).  Appending the phases of a list
    to a freshly constructed sequence, each with its duration and in order,
    gives a sequence with as many phases as the list has entries, whose first
    boundary time is the start time, and in which phase [i] has the handle of
    entry [i] and ends at its start time plus the duration of entry [i]. *)
Theorem X10_appended_list_is_read_back (start : Time) (l : list (PhasePtr_t * Time)) :
  Z.of_nat (length l) < SIZE_MAX →
  ∃ s,
    exec_all (append_calls l) (PhaseSequence_new start) = Some s ∧
    getNumPhases s = Some (Z.of_nat (length l), s) ∧
    getStartTimeFromIdx 0 s = Some (start, s) ∧
    ∀ (i : nat) p d, l !! i = Some (p, d) →
      ∃ a : Time,
        getStartTimeFromIdx (Z.of_nat i) s = Some (a, s) ∧
        getEndTimeFromIdx (Z.of_nat i) s = Some (t_add a d, s) ∧
        getPhasePtrFromIdx (Z.of_nat i) s = Some (p, s).
Proof.
  intros Hsize. eexists. split.
  { rewrite (exec_all_append_calls l _ start) by done. simpl.
    by rewrite <-boundary_times_head. }
  split; [|split].
  - rewrite getNumPhases_run. simpl. unfold vec_size. by rewrite length_fmap.
  - apply getStartTimeFromIdx_at. simpl. by rewrite boundary_times_head.
  - intros i p d Hi.
    destruct (lookup_lt_is_Some_2 (boundary_times start l.*2) i) as [a Ha].
    { rewrite boundary_times_length, length_fmap. apply lookup_lt_Some in Hi. lia. }
    exists a. split; [|split].
    + apply getStartTimeFromIdx_at. simpl. by rewrite vec_at_of_nat.
    + apply getEndTimeFromIdx_at. simpl.
      rewrite size_t_wrap_small by (apply lookup_lt_Some in Hi; lia).
      replace (Z.of_nat i + 1) with (Z.of_nat (S i)) by lia. rewrite vec_at_of_nat.
      apply boundary_times_step; [done|]. by rewrite list_lookup_fmap, Hi.
    + apply getPhasePtrFromIdx_at. simpl.
      by rewrite vec_at_of_nat, list_lookup_fmap, Hi.
Qed.

(** X11 (what [getNumSwitches] counts).  On a sequence with at least one
    phase [getNumSwitches()] is [getNumPhases() - 1], and
    [getSwitchEventFromIdx(i)] returns an event exactly for the indices [i]
    below it. *)
Theorem X11_getNumSwitches_counts_switch_events s (n : Z) :
  consistent s → representable s → getNumPhases s = Some (n, s) → 0 < n →
  getNumSwitches s = Some (n - 1, s) ∧
  ∀ i : Z, 0 ≤ i ≤ SIZE_MAX →
    (is_Some (getSwitchEventFromIdx i s) ↔ i < n - 1).
Proof.
  intros Hlen Hrep Hn Hpos. apply getNumPhases_value in Hn as ->.
  split; [by apply getNumSwitches_nonempty|].
  unfold representable in Hrep.
  assert (vec_size (time_schedule_ s) = vec_size (phase_schedule_ s) + 1) as Hsize
    by (unfold consistent in Hlen; unfold vec_size; lia).
  intros i Hi. rewrite getSwitchEventFromIdx_run. split.
  - intros [ev Hev].
    destruct (decide (i < vec_size (phase_schedule_ s) - 1)) as [|Hge]; [done|].
    destruct (decide (vec_size (phase_schedule_ s) ≤ i)) as [Hout|Hin].
    + by rewrite (vec_at_out_of_bounds _ i) in Hev.
    + rewrite size_t_wrap_small, (vec_at_out_of_bounds _ (i + 1)) in Hev by lia.
      by destruct (vec_at _ i).
  - intros Hlt. rewrite size_t_wrap_small by lia.
    destruct (vec_at_in_bounds (phase_schedule_ s) i) as [pre ->]; [lia|].
    destruct (vec_at_in_bounds (phase_schedule_ s) (i + 1)) as [post ->]; [lia|].
    destruct (vec_at_in_bounds (time_schedule_ s) (i + 1)) as [time ->]; [lia|].
    by eexists.
Qed.



End Building.

Lemma X10_witness :
  ∃ s,
    exec_all (append_calls [(10%nat, 2); (11%nat, 3); (12%nat, 1)]) (PhaseSequence_new 0)
      = Some s ∧
    getNumPhases s = Some (Z.of_nat 3, s) ∧
    getStartTimeFromIdx 0 s = Some (0, s) ∧
    ∀ (i : nat) p d, [(10%nat, 2); (11%nat, 3); (12%nat, 1)] !! i = Some (p, d) →
      ∃ a : Z,
        getStartTimeFromIdx (Z.of_nat i) s = Some (a, s) ∧
        getEndTimeFromIdx (Z.of_nat i) s = Some (t_add a d, s) ∧
        getPhasePtrFromIdx (Z.of_nat i) s = Some (p, s).
Proof.
  apply (X10_appended_list_is_read_back 0 [(10%nat, 2); (11%nat, 3); (12%nat, 1)]).
  reflexivity.
Defined.

Lemma X11_witness :
  getNumSwitches three_phases = Some (3 - 1, three_phases) ∧
  ∀ i : Z, 0 ≤ i ≤ SIZE_MAX →
    (is_Some (getSwitchEventFromIdx i three_phases) ↔ i < 3 - 1).
Proof.
  apply (X11_getNumSwitches_counts_switch_events three_phases 3);
    [reflexivity|by vm_compute|reflexivity|lia].
Defined.
